(** * go-marketo: bulk import and custom object records

    A shallow embedding of [bulk.go] and [custom.go].  Go functions that
    return [(value, error)] become functions into [outcome]; the receiver
    [*Client] becomes a record of its two methods; the lexers of the
    standard library the code calls (encoding/json, encoding/csv, net/url)
    are class parameters, so that every statement below holds whatever
    those lexers do. *)

From Equations Require Import Equations.
From Stdlib Require Import ZArith QArith Ascii DecimalString.
From stdpp Require Import gmap strings list.

Set Warnings "-register-all,-clear-no-such-hyp".
Local Open Scope Z_scope.

(** ** Errors and results *)

(** An entry of the response envelope's [errors] array.
    Modelled from the spec: the type of the entries is declared outside
    the two files; the spec only calls them "application-level error
    reasons", so an entry is kept as its text. *)
Record ErrorEntry := mkErrorEntry { entry_text : string }.

Inductive error :=
| EOF                                             (* io.EOF *)
| ErrFieldCount                                   (* csv.ErrFieldCount *)
| ErrCanceled                                     (* context.Canceled *)
| ErrNotFound                                     (* errors.New("not found") *)
| ErrHTTPStatus (op : string) (status : Z)        (* handleError *)
| ErrAPI (status : Z) (reasons : list ErrorEntry)     (* ErrorForReasons *)
| ErrDecode (msgs : list string)                  (* mapstructure.Error *)
| ErrOther (pkg msg : string).                    (* any other library error *)

(** The result of a Go call: a value, an error, or a run-time panic. *)
Inductive outcome (A : Type) :=
| Ok (a : A)
| Err (e : error)
| Panic (msg : string).
Arguments Ok {A} a.
Arguments Err {A} e.
Arguments Panic {A} msg.

(** Sequencing: [x ← m; k] stops at the first error or panic, as the
    [if err != nil { return nil, err }] after each call does. *)
Global Instance outcome_bind : MBind outcome := λ A B k m,
  match m with
  | Ok a => k a
  | Err e => Err e
  | Panic msg => Panic msg
  end.

(** [l[i]] on a slice, with Go's bounds check. *)
Definition index {A} (l : list A) (i : Z) : outcome A :=
  if i <? 0 then Panic "index out of range"
  else match l !! Z.to_nat i with
       | Some x => Ok x
       | None => Panic "index out of range"
       end.

Definition len {A} (l : list A) : Z := Z.of_nat (length l).

(** ** Bytes and text *)

Definition CR : ascii := ascii_of_nat 13.
Definition LF : ascii := ascii_of_nat 10.
Definition DQ : ascii := ascii_of_nat 34.
Definition CRLF : string := String CR (String LF "").
Definition quoted (s : string) : string := String DQ s +:+ String DQ "".

Fixpoint has_prefix (p s : string) : bool :=
  match p, s with
  | "", _ => true
  | String a p', String b s' => Ascii.eqb a b && has_prefix p' s'
  | String _ _, "" => false
  end.

Fixpoint skip (n : nat) (s : string) : string :=
  match n, s with
  | O, _ => s
  | S n', String _ s' => skip n' s'
  | S _, "" => ""
  end.

(** strings.Cut: [s] around the first instance of [sep]. *)
Fixpoint Cut (sep s : string) : option (string * string) :=
  if has_prefix sep s then Some ("", skip (String.length sep) s)
  else match s with
       | "" => None
       | String c s' =>
           match Cut sep s' with
           | Some (before, after) => Some (String c before, after)
           | None => None
           end
       end.

(** strings.Split(s, sep) for a separator of one byte *)
Fixpoint Split (s : string) (sep : ascii) : list string :=
  match s with
  | "" => [""]
  | String c rest =>
      if Ascii.eqb c sep then "" :: Split rest sep
      else match Split rest sep with
           | [] => [String c ""]
           | p :: ps => String c p :: ps
           end
  end.

(** strings.Contains *)
Definition Contains (s sep : string) : bool :=
  match Cut sep s with Some _ => true | None => false end.

(** strings.IndexByte(s, c) >= 0 *)
Fixpoint has_byte (c : ascii) (s : string) : bool :=
  match s with
  | "" => false
  | String a s' => Ascii.eqb a c || has_byte c s'
  end.

(** strconv.Itoa *)
Definition Itoa (n : Z) : string := NilEmpty.string_of_int (Z.to_int n).

(** ** fmt.Sprintf

    The verbs [%s], [%d], [%v] and [%%], with Go's diagnostics for a
    missing operand, a wrong operand type, a format ending in [%] and
    operands left over.  Flags, width and the remaining verbs are not
    used by the program's own formats and are reported as bad verbs. *)

Inductive arg := AString (s : string) | AInt (n : Z).

Definition arg_type (a : arg) : string :=
  match a with AString _ => "string" | AInt _ => "int" end.

Definition arg_text (a : arg) : string :=
  match a with AString s => s | AInt n => Itoa n end.

Definition bad_verb (v : ascii) (a : arg) : string :=
  "%!" +:+ String v ("(" +:+ arg_type a +:+ "=" +:+ arg_text a +:+ ")").

Definition format_verb (v : ascii) (a : arg) : string :=
  match v, a with
  | "s"%char, AString s => s
  | "d"%char, AInt n => Itoa n
  | "v"%char, _ => arg_text a
  | _, _ => bad_verb v a
  end.

Fixpoint extra_args (args : list arg) : string :=
  match args with
  | [] => ""
  | [a] => arg_type a +:+ "=" +:+ arg_text a
  | a :: rest => arg_type a +:+ "=" +:+ arg_text a +:+ ", " +:+ extra_args rest
  end.

Definition extra (args : list arg) : string :=
  match args with
  | [] => ""
  | _ => "%!(EXTRA " +:+ extra_args args +:+ ")"
  end.

Fixpoint Sprintf (format : string) (args : list arg) : string :=
  match format with
  | "" => extra args
  | String "%" "" => "%!(NOVERB)" +:+ extra args
  | String "%" (String v rest) =>
      if Ascii.eqb v "%" then String "%" (Sprintf rest args)
      else match args with
           | [] => "%!" +:+ String v "(MISSING)" +:+ Sprintf rest []
           | a :: args' => format_verb v a +:+ Sprintf rest args'
           end
  | String c rest => String c (Sprintf rest args)
  end.

(** The number of operands a format consumes through the verb [%d]:
    the "integer placeholders" of a path template. *)
Fixpoint placeholders (format : string) : nat :=
  match format with
  | "" => 0
  | String "%" "" => 0
  | String "%" (String v rest) =>
      ((if Ascii.eqb v "d" then 1 else 0) + placeholders rest)%nat
  | String _ rest => placeholders rest
  end.

(** ** Record references: [ImportObject] *)

Record ImportObject := mkImportObject {
  create : string;
  status : string;
  failures : string
}.

Definition Leads : ImportObject := {|
  create := "leads";
  status := "leads/batch/%d";
  failures := "leads/batch/%d/failures"
|}.

Definition importObjects : gmap string ImportObject :=
  {[ "lead" := Leads ]}.

Definition ImportObjectForAPIName (apiName : string) : ImportObject :=
  match importObjects !! apiName with
  | Some obj => obj
  | None => {|
      create := Sprintf "customobjects/%s/import" [AString apiName];
      status := Sprintf "customobjects/%s/import/%%d/status" [AString apiName];
      failures := Sprintf "customobjects/%s/import/%%d/failures" [AString apiName]
    |}
  end.

Definition BatchComplete : string := "Complete".
Definition BatchQueued : string := "Queued".
Definition BatchImporting : string := "Importing".
Definition BatchFailed : string := "Failed".

Definition createImport : string := "create bulk import".
Definition getImport : string := "get import status".
Definition getImportFailures : string := "get import failures".


(** ** The collaborators: contexts, streams, net/http, the client *)

(** context.Context, as far as a callee can observe it: [ctx.Err()]. *)
Record Context := mkContext { ctx_err : option error }.

Definition Background : Context := {| ctx_err := None |}.

(** An [io.Reader]: the bytes it delivers and how it ends, [None] for
    [io.EOF] and [Some e] for a read that fails with [e]. *)
Record Stream := mkStream { bytes : string; ending : option error }.

Module url.
(** net/url.Parse, as far as http.NewRequest uses it: [None] when the
    text is a well-formed URL, the error otherwise. *)
Class Parser := Parse : string → option error.
End url.

Module http.
Definition MethodGet : string := "GET".
Definition MethodPost : string := "POST".
Definition StatusOK : Z := 200.
Definition StatusNotFound : Z := 404.

Record Request := mkRequest {
  Method : string;
  URL : string;
  Body : option string;
  Header : list (string * string);
  Ctx : Context
}.

Record Response := mkResponse {
  StatusCode : Z;
  RespBody : Stream
}.

(** http.NewRequest is [NewRequestWithContext(context.Background(), ...)]. *)
Definition NewRequest `{url.Parser} (method url : string) (body : option string)
  : outcome Request :=
  match url.Parse url with
  | Some e => Err e
  | None => Ok {| Method := method; URL := url; Body := body;
                  Header := []; Ctx := Background |}
  end.

(** request.Header.Add *)
Definition Header_Add (key val : string) (r : Request) : Request :=
  {| Method := Method r; URL := URL r; Body := Body r;
     Header := Header r ++ [(key, val)]; Ctx := Ctx r |}.
End http.

(** The receiver [*Client], through the two methods the files call.
    Modelled from the spec: the client is declared outside the two files;
    it offers "a doRequest(request) → response call that performs
    authentication and returns a raw HTTP response, and a url(...) → string
    call that joins a base endpoint with path segments". *)
Record Client := mkClient {
  url : list string → string;
  doRequest : http.Request → outcome http.Response
}.

(** Modelled from the spec: handleError is declared outside the two files;
    it builds the "HTTP-status error (non-200 status, tagged with the
    failing operation's name and the numeric status)". *)
Definition handleError (op : string) (resp : http.Response) : error :=
  ErrHTTPStatus op (http.StatusCode resp).

(** Modelled from the spec: ErrorForReasons is declared outside the two
    files; it builds the "API error ... constructed from that status plus
    all reasons". *)
Definition ErrorForReasons (status : Z) (reasons : list ErrorEntry) : error :=
  ErrAPI status reasons.

(** The response envelope.
    Modelled from the spec: the type is declared outside the two files;
    it is "the common response wrapper containing a result payload,
    optional errors, and (for filter/list calls) a pagination token".
    [Result] is a json.RawMessage, the bytes of the payload. *)
Record Response := mkEnvelope {
  Errors : list ErrorEntry;
  Result : string;
  NextPageToken : string
}.

(** ** Values of type [interface{}] as encoding/json produces them *)

Inductive value :=
| VNil
| VBool (b : bool)
| VFloat64 (q : Q)
| VString (s : string)
| VSlice (l : list value)
| VMap (m : list (string * value)).

(** ** Batches *)

Record BatchResult := mkBatchResult {
  BatchID : Z;
  ImportID : string;
  Status : string;
  LeadsProcessed : Z;
  Failures : Z;
  Warnings : Z;
  Message : string;
  ObjectsProcessed : Z;
  ObjectName : string;
  Processed : Z
}.

Definition set_Processed (n : Z) (r : BatchResult) : BatchResult :=
  {| BatchID := BatchID r; ImportID := ImportID r; Status := Status r;
     LeadsProcessed := LeadsProcessed r; Failures := Failures r;
     Warnings := Warnings r; Message := Message r;
     ObjectsProcessed := ObjectsProcessed r; ObjectName := ObjectName r;
     Processed := n |}.

Record LeadImportFailure := mkLeadImportFailure {
  Reason : string;
  Fields : gmap string value
}.

Module json.
(** encoding/json on the two target types of bulk.go:
    [json.NewDecoder(body).Decode(&Response{})] and
    [json.Unmarshal(raw, &[]BatchResult{})]. *)
Class Decoder := {
  Decode_Response : Stream → outcome Response;
  Unmarshal_BatchResults : string → outcome (list BatchResult);
  Unmarshal_records : string → outcome (list (list (string * value)))
}.
End json.

(** ** encoding/csv *)

Module csv.
(** What [readRecord] finds at the next non-empty line: its fields, or
    the fields read so far and the error (a quoting error, or the error
    of the underlying stream). *)
Inductive line :=
| Line (fields : list string)
| Bad (fields : list string) (e : error).

(** The lexer: the lines of a body, in order.  The end of the list is
    the end of the stream, and an empty stream has no line. *)
Class Lexer := {
  lines : Stream → list line;
  lines_empty : lines (mkStream "" None) = []
}.

Record Reader := mkReader {
  FieldsPerRecord : Z;
  pending : list line
}.

Definition NewReader `{Lexer} (r : Stream) : Reader :=
  {| FieldsPerRecord := 0; pending := lines r |}.

(** [Reader.Read]: the record, the error, and the reader afterwards.
    With [FieldsPerRecord] 0 the first record fixes the number of fields,
    and a later record of another length is an [ErrFieldCount]. *)
Definition Read (r : Reader) : list string * option error * Reader :=
  match pending r with
  | [] => ([], Some EOF, r)
  | l :: rest =>
      let '(dst, err) :=
        match l with
        | Line fields => (fields, None)
        | Bad fields e => (fields, Some e)
        end in
      if 0 <? FieldsPerRecord r then
        let err :=
          match err with
          | None => if len dst =? FieldsPerRecord r then None
                    else Some ErrFieldCount
          | Some e => Some e
          end in
        (dst, err, {| FieldsPerRecord := FieldsPerRecord r; pending := rest |})
      else if FieldsPerRecord r =? 0 then
        (dst, err, {| FieldsPerRecord := len dst; pending := rest |})
      else
        (dst, err, {| FieldsPerRecord := FieldsPerRecord r; pending := rest |})
  end.
End csv.

(** ** net/textproto and mime/multipart *)

Module textproto.
(** A MIMEHeader holding one value per key, kept in key order: the
    order in which multipart.Writer.CreatePart writes the header lines
    (it sorts the keys). *)
Definition MIMEHeader := list (string * string).

Fixpoint Set_ (key val : string) (h : MIMEHeader) : MIMEHeader :=
  match h with
  | [] => [(key, val)]
  | (k, v) :: h' =>
      if String.eqb key k then (key, val) :: h'
      else if String.ltb key k then (key, val) :: (k, v) :: h'
      else (k, v) :: Set_ key val h'
  end.

Fixpoint Get (key : string) (h : MIMEHeader) : option string :=
  match h with
  | [] => None
  | (k, v) :: h' => if String.eqb key k then Some v else Get key h'
  end.
End textproto.

Module multipart.
Definition hex_digit (n : N) : ascii :=
  match n with
  | 0%N => "0" | 1%N => "1" | 2%N => "2" | 3%N => "3"
  | 4%N => "4" | 5%N => "5" | 6%N => "6" | 7%N => "7"
  | 8%N => "8" | 9%N => "9" | 10%N => "a" | 11%N => "b"
  | 12%N => "c" | 13%N => "d" | 14%N => "e" | _ => "f"
  end%char.

(** [fmt.Sprintf("%x", buf)] on a byte slice *)
Fixpoint hex (buf : string) : string :=
  match buf with
  | "" => ""
  | String c rest =>
      String (hex_digit (N_of_ascii c / 16))
        (String (hex_digit (N_of_ascii c mod 16)) (hex rest))
  end.

(** The writer: its boundary, the bytes written to the underlying
    buffer so far, and whether a part has been started. *)
Record Writer := mkWriter {
  boundary : string;
  w : string;
  lastpart : bool
}.

(** [NewWriter] draws the boundary from crypto/rand; [rnd] is the draw
    (30 bytes in Go). *)
Definition NewWriter (rnd : string) : Writer :=
  {| boundary := hex rnd; w := ""; lastpart := false |}.

Fixpoint header_lines (h : textproto.MIMEHeader) : string :=
  match h with
  | [] => ""
  | (k, v) :: h' => k +:+ ": " +:+ v +:+ CRLF +:+ header_lines h'
  end.

Definition CreatePart (header : textproto.MIMEHeader) (wr : Writer) : Writer :=
  let b := (if lastpart wr then CRLF else "") +:+ "--" +:+ boundary wr +:+ CRLF
           +:+ header_lines header +:+ CRLF in
  {| boundary := boundary wr; w := w wr +:+ b; lastpart := true |}.

(** Writing to the part returned by [CreatePart] *)
Definition Write (p : string) (wr : Writer) : Writer :=
  {| boundary := boundary wr; w := w wr +:+ p; lastpart := lastpart wr |}.

Definition Close (wr : Writer) : Writer :=
  {| boundary := boundary wr;
     w := w wr +:+ CRLF +:+ "--" +:+ boundary wr +:+ "--" +:+ CRLF;
     lastpart := false |}.

(** The boundary is made of hexadecimal digits, which never need the
    quoting that FormDataContentType applies to special characters. *)
Definition FormDataContentType (wr : Writer) : string :=
  "multipart/form-data; boundary=" +:+ boundary wr.

(** *** Reading a body back

    The receiving side, after RFC 2046 and multipart.Reader: a body
    without preamble opens with the delimiter [--boundary]; behind a
    delimiter, [--] closes the body, and a line break opens a part,
    made of header lines up to an empty line and of the content up to
    the next line break followed by the delimiter; the line break of the
    empty line counts, so that a delimiter right behind the header ends
    a part without content. *)
Record Part := mkPart {
  Header : textproto.MIMEHeader;
  Content : string
}.

Fixpoint read_header (fuel : nat) (s : string)
  : option (textproto.MIMEHeader * string) :=
  match fuel with
  | O => None
  | S fuel' =>
      '(line, rest) ← Cut CRLF s;
      if String.eqb line "" then Some ([], rest)
      else
        '(key, val) ← Cut ": " line;
        '(h, rest') ← read_header fuel' rest;
        Some ((key, val) :: h, rest')
  end.

(** The parts behind a delimiter. *)
Fixpoint read_parts (fuel : nat) (boundary s : string) : option (list Part) :=
  match fuel with
  | O => None
  | S fuel' =>
      if has_prefix "--" s then Some []
      else
        '(blank, s) ← Cut CRLF s;
        if negb (String.eqb blank "") then None
        else
          '(h, s) ← read_header (S (String.length s)) s;
          if has_prefix ("--" +:+ boundary) s then
            parts ← read_parts fuel' boundary
                      (skip (String.length ("--" +:+ boundary)) s);
            Some (mkPart h "" :: parts)
          else
            '(content, s) ← Cut (CRLF +:+ "--" +:+ boundary) s;
            parts ← read_parts fuel' boundary s;
            Some (mkPart h content :: parts)
  end.

Definition ReadAll (boundary body : string) : option (list Part) :=
  if has_prefix ("--" +:+ boundary) body then
    read_parts (S (String.length body)) boundary
      (skip (String.length ("--" +:+ boundary)) body)
  else None.

(** A parameter [key="value"] of a Content-Disposition value. *)
Definition param (key v : string) : option string :=
  '(_, rest) ← Cut ("; " +:+ key +:+ "=" +:+ String DQ "") v;
  '(val, _) ← Cut (String DQ "") rest;
  Some val.

Definition FormName (p : Part) : option string :=
  v ← textproto.Get "Content-Disposition" (Header p);
  param "name" v.

Definition FileName (p : Part) : option string :=
  v ← textproto.Get "Content-Disposition" (Header p);
  param "filename" v.
End multipart.

(** [io.Copy(dst, src)] into a multipart part: all the bytes of [src] are
    written, and a read error of [src] is returned. *)
Definition io_Copy (src : Stream) (wr : multipart.Writer) : outcome multipart.Writer :=
  match ending src with
  | None => Ok (multipart.Write (bytes src) wr)
  | Some e => Err e
  end.

(** The parts of the body of a request, read back with the boundary that
    its Content-Type header announces. *)
Definition request_parts (req : http.Request) : option (list multipart.Part) :=
  contentType ← textproto.Get "Content-Type" (http.Header req);
  '(_, boundary) ← Cut "multipart/form-data; boundary=" contentType;
  body ← http.Body req;
  multipart.ReadAll boundary body.

(** The header of the one part that [Create] writes. *)
Definition file_part_header : textproto.MIMEHeader :=
  [("Content-Disposition",
    "form-data; name=" +:+ quoted "file" +:+ "; filename="
    +:+ quoted "import.csv")].

(** ** The import API *)

Module ImportAPI.
Section ImportAPI.
Context `{url.Parser, json.Decoder, csv.Lexer}.

(** The request of [Create]: the multipart body and its content type.
    [rnd] is the draw of random bytes that multipart.NewWriter turns into
    the boundary.  The writer writes into a strings.Builder, whose writes
    do not fail, so that CreatePart and Close return no error here. *)
Definition CreateRequest (i : Client) (obj : ImportObject) (file : Stream)
    (rnd : string) : outcome http.Request :=
  let mpWriter := multipart.NewWriter rnd in
  let h := textproto.Set_ "Content-Disposition"
             (Sprintf ("form-data; name=" +:+ quoted "file" +:+ "; filename="
                       +:+ quoted "%s") [AString "import.csv"]) [] in
  let fileWriter := multipart.CreatePart h mpWriter in
  fileWriter ← io_Copy file fileWriter;
  let mpWriter := multipart.Close fileWriter in
  request ← http.NewRequest http.MethodPost
    (url i ["bulk"; "v1"; Sprintf "%s.json?format=csv" [AString (create obj)]])
    (Some (multipart.w mpWriter));
  Ok (http.Header_Add "Content-Type" (multipart.FormDataContentType mpWriter) request).

Definition Create (i : Client) (ctx : Context) (obj : ImportObject)
    (file : Stream) (rnd : string) : outcome (list BatchResult) :=
  request ← CreateRequest i obj file rnd;
  resp ← doRequest i request;
  if negb (http.StatusCode resp =? http.StatusOK) then
    Err (handleError createImport resp)
  else
    response ← json.Decode_Response (http.RespBody resp);
    if 0 <? len (Errors response) then
      Err (ErrorForReasons (http.StatusCode resp) (Errors response))
    else
      results ← json.Unmarshal_BatchResults (Result response);
      Ok results.

(** The request of [Get]. *)
Definition GetRequest (i : Client) (obj : ImportObject) (id : Z)
  : outcome http.Request :=
  http.NewRequest http.MethodGet
    (url i ["bulk"; "v1";
            Sprintf "%s.json" [AString (Sprintf (status obj) [AInt id])]])
    None.

(** The body of the loop over [result] in [Get]. *)
Definition derive_Processed (r : BatchResult) : BatchResult :=
  let r' := set_Processed (ObjectsProcessed r) r in
  if 0 <? LeadsProcessed r then set_Processed (LeadsProcessed r) r' else r'.

Definition Get (i : Client) (ctx : Context) (obj : ImportObject) (id : Z)
  : outcome BatchResult :=
  request ← GetRequest i obj id;
  resp ← doRequest i request;
  if negb (http.StatusCode resp =? http.StatusOK) then
    Err (handleError getImport resp)
  else
    response ← json.Decode_Response (http.RespBody resp);
    if 0 <? len (Errors response) then
      Err (ErrorForReasons (http.StatusCode resp) (Errors response))
    else
      result ← json.Unmarshal_BatchResults (Result response);
      if len result <? 1 then Err ErrNotFound
      else
        let result := derive_Processed <$> result in
        index result 0.

(** The request of [Failures]. *)
Definition FailuresRequest (i : Client) (obj : ImportObject) (id : Z)
  : outcome http.Request :=
  http.NewRequest http.MethodGet
    (url i ["bulk"; "v1";
            Sprintf "%s.json" [AString (Sprintf (failures obj) [AInt id])]])
    None.

(** [for i := 0; i < len(header)-1; i++ { fields[header[i]] = record[i] }] *)
Definition fill_Fields (header record : list string)
  : outcome (gmap string value) :=
  foldl (λ acc i,
           fields ← acc;
           h ← index header i;
           c ← index record i;
           Ok (<[h := VString c]> fields))
        (Ok ∅) (seqZ 0 (len header - 1)).

(** One turn of the loop over the data rows. *)
Definition row_failure (header record : list string)
  : outcome LeadImportFailure :=
  reason ← index record (len header - 1);
  fields ← fill_Fields header record;
  Ok {| Reason := reason; Fields := fields |}.

Definition loop_measure (err : option error) (reader : csv.Reader) : nat :=
  match err with
  | None => S (length (csv.pending reader))
  | Some _ => 0
  end.

(** [for err == nil { ...; record, err = reader.Read() }] *)
Equations scan (header : list string) (reader : csv.Reader)
    (record : list string) (err : option error)
    (failures : list LeadImportFailure)
  : outcome (list LeadImportFailure)
  by wf (loop_measure err reader) lt :=
  scan header reader record (Some _) failures := Ok failures;
  scan header reader record None failures with row_failure header record := {
    | Err e := Err e
    | Panic msg := Panic msg
    | Ok failure with (exist _ (csv.Read reader) eq_refl
                        : { x | csv.Read reader = x }) := {
        | exist _ (record', err', reader') Hread :=
            scan header reader' record' err' (failures ++ [failure]) } }.
Next Obligation.
  intros _ reader record' err' reader' Hread _ _ _ _.
  revert Hread. unfold csv.Read, loop_measure.
  destruct (csv.pending reader) as [|l rest].
  - intros ?; simplify_eq. lia.
  - destruct l; repeat case_match; intros ?; simplify_eq; simpl; lia.
Qed.

Definition Failures (i : Client) (ctx : Context) (obj : ImportObject) (id : Z)
  : outcome (list LeadImportFailure) :=
  request ← FailuresRequest i obj id;
  resp ← doRequest i request;
  if http.StatusCode resp =? http.StatusNotFound then Ok []
  else if negb (http.StatusCode resp =? http.StatusOK) then
    Err (handleError getImportFailures resp)
  else
    let reader := csv.NewReader (http.RespBody resp) in
    let '(header, err, reader) := csv.Read reader in
    match err with
    | Some e => Err e
    | None =>
        let '(record, err, reader) := csv.Read reader in
        scan header reader record err []
    end.
End ImportAPI.
End ImportAPI.

(** The failure that a data row stands for under a header, in the words
    of the report format: the last cell of the row is the reason, and
    every cell before it is entered under the header name of its column,
    in column order. *)
Definition enter (fields : gmap string value) (hc : string * string)
  : gmap string value :=
  <[hc.1 := VString hc.2]> fields.

Definition failure_of (header row : list string) : LeadImportFailure :=
  {| Reason := default "" (last row);
     Fields := foldl enter ∅ (zip (take (length header - 1) header) row) |}.

(** The reader behind the header row. *)
Definition behind (header : list string) (pending : list csv.line)
  : csv.Reader :=
  {| csv.FieldsPerRecord := len header; csv.pending := pending |}.

(** A malformed line behind the header: a line that cannot be read, or a
    row of another length than the header. *)
Definition malformed (header : list string) (l : csv.line) : Prop :=
  match l with
  | csv.Bad _ _ => True
  | csv.Line row => length row ≠ length header
  end.

(** What ends the scan of the data rows: the end of the stream or a
    malformed line. *)
Definition stops (header : list string) (pending : list csv.line) : Prop :=
  match pending with
  | [] => True
  | l :: _ => malformed header l
  end.

(** ** github.com/mitchellh/mapstructure *)

Module mapstructure.
Definition to_lower (c : ascii) : ascii :=
  let n := N_of_ascii c in
  if ((65 <=? n) && (n <=? 90))%N then ascii_of_N (n + 32) else c.

(** strings.EqualFold, on the ASCII letters. *)
Fixpoint EqualFold (s t : string) : bool :=
  match s, t with
  | "", "" => true
  | String a s', String b t' =>
      Ascii.eqb (to_lower a) (to_lower b) && EqualFold s' t'
  | _, _ => false
  end.

(** How a decoded value is stored into a field of the struct [T]. *)
Inductive setter (T : Type) :=
| SetString (f : string → T → T)
| SetInt (f : Z → T → T)
| SetMap (f : gmap string value → T → T).
Arguments SetString {T} f.
Arguments SetInt {T} f.
Arguments SetMap {T} f.

(** reflect.StructField: the Go name of a field, its tag as
    [key:"value"] pairs, and the field itself. *)
Record StructField (T : Type) := mkStructField {
  Name : string;
  Tag : list (string * string);
  field : setter T
}.
Arguments mkStructField {T}.
Arguments Name {T}.
Arguments Tag {T}.
Arguments field {T}.

(** StructTag.Get *)
Fixpoint Tag_Get (key : string) (tag : list (string * string)) : string :=
  match tag with
  | [] => ""
  | (k, v) :: tag' => if String.eqb k key then v else Tag_Get key tag'
  end.

(** The decoder of [Decode] has the default configuration: TagName
    "mapstructure", no weak typing, MatchName strings.EqualFold. *)
Definition TagName : string := "mapstructure".

(** The loop over the parts of a tag behind its first comma: it stops at
    the first [squash] or [remain]. *)
Fixpoint remain_flag (flags : list string) : bool :=
  match flags with
  | [] => false
  | tag :: flags' =>
      if String.eqb tag "squash" then false
      else if String.eqb tag "remain" then true
      else remain_flag flags'
  end.

Definition has_remain {T} (f : StructField T) : bool :=
  match Split (Tag_Get TagName (Tag f)) "," with
  | _ :: flags => remain_flag flags
  | [] => false
  end.

Definition fieldName {T} (f : StructField T) : string :=
  match Split (Tag_Get TagName (Tag f)) "," with
  | tagValue :: _ => if String.eqb tagValue "" then Name f else tagValue
  | [] => Name f
  end.

Definition type_name (v : value) : string :=
  match v with
  | VNil => "nil"
  | VBool _ => "bool"
  | VFloat64 _ => "float64"
  | VString _ => "string"
  | VSlice _ => "[]interface {}"
  | VMap _ => "map[string]interface {}"
  end.

Definition unconvertible (name expected : string) (v : value) : string :=
  "'" +:+ name +:+ "' expected type '" +:+ expected
  +:+ "', got unconvertible type '" +:+ type_name v +:+ "'".

(** [int64(f)] on a float64: the integer part. *)
Definition trunc (q : Q) : Z := Z.quot (Qnum q) (Z.pos (Qden q)).

(** [Decoder.decode] into one field: a nil value leaves the field as it
    is; a value of another kind is an error. *)
Definition decode_field {T} (name : string) (v : value) (f : StructField T)
    (out : T) : T + string :=
  match v, field f with
  | VNil, _ => inl out
  | VString s, SetString set => inl (set s out)
  | _, SetString _ => inr (unconvertible name "string" v)
  | VFloat64 q, SetInt set => inl (set (trunc q) out)
  | _, SetInt _ => inr (unconvertible name "int" v)
  | VMap m, SetMap set => inl (set (list_to_map m) out)
  | _, SetMap _ => inr (unconvertible name "map[string]interface {}" v)
  end.

(** [dataVal.MapIndex(key)] *)
Fixpoint MapIndex (key : string) (data : list (string * value)) : option value :=
  match data with
  | [] => None
  | (k, v) :: data' => if String.eqb k key then Some v else MapIndex key data'
  end.

(** The key of [data] that feeds the field called [name]: the key
    [name] itself when present, else the first key, in the order in
    which the map is ranged over, that matches it without regard to
    case. *)
Definition find_key (name : string) (data : list (string * value))
  : option (string * value) :=
  match MapIndex name data with
  | Some v => Some (name, v)
  | None => List.find (λ kv, EqualFold kv.1 name) data
  end.

(** The state of decodeStructFromMap: the struct being filled, the keys
    not used yet, the errors so far. *)
Record state (T : Type) := mkState {
  out : T;
  unused : list string;
  errors : list string
}.
Arguments mkState {T}.
Arguments out {T}.
Arguments unused {T}.
Arguments errors {T}.

Definition decode_one {T} (data : list (string * value)) (st : state T)
    (f : StructField T) : state T :=
  match find_key (fieldName f) data with
  | None => st
  | Some (rawMapKey, rawMapVal) =>
      let unused' := filter (λ k, k ≠ rawMapKey) (unused st) in
      match decode_field (fieldName f) rawMapVal f (out st) with
      | inl out' => mkState out' unused' (errors st)
      | inr msg => mkState (out st) unused' (errors st ++ [msg])
      end
  end.

(** The entries of [data] under the unused keys. *)
Definition remaining (data : list (string * value)) (unused : list string)
  : gmap string value :=
  list_to_map (omap (λ k, (λ v, (k, v)) <$> MapIndex k data) unused).

Definition decode_remain {T} (data : list (string * value)) (st : state T)
    (remainField : option (StructField T)) : state T :=
  match remainField with
  | Some f =>
      if 0 <? len (unused st) then
        match field f with
        | SetMap set =>
            mkState (set (remaining data (unused st)) (out st)) [] (errors st)
        | _ =>
            (* a remain field that is no map: not the case of any
               struct of this program *)
            mkState (out st) []
              (errors st ++ [unconvertible "" "map" (VMap [])])
        end
      else st
  | None => st
  end.

(** [Decode(input, &output)] for a map [input], given in the order in
    which Go ranges over it, and a struct [output] with the fields
    [fields]. *)
Definition Decode {T} (fields : list (StructField T))
    (input : list (string * value)) (output : T) : outcome T :=
  let remainField := last (filter (λ f, has_remain f) fields) in
  let normal := filter (λ f, negb (has_remain f)) fields in
  let st := foldl (decode_one input) (mkState output input.*1 []) normal in
  let st := decode_remain input st remainField in
  match errors st with
  | [] => Ok (out st)
  | msgs => Err (ErrDecode msgs)
  end.
End mapstructure.

(** ** Custom objects *)

Module CustomObjects.
Record CustomObjectResult := mkCustomObjectResult {
  MarketoGUID : string;
  Sequence : Z;
  Fields : gmap string value
}.

(** The fields of [CustomObjectResult] with their struct tags, as
    reflection shows them to mapstructure. *)
Definition CustomObjectResult_fields
  : list (mapstructure.StructField CustomObjectResult) :=
  [ mapstructure.mkStructField "MarketoGUID" [("json", "marketoGUID")]
      (mapstructure.SetString
         (λ s r, mkCustomObjectResult s (Sequence r) (Fields r)));
    mapstructure.mkStructField "Sequence" [("json", "seq")]
      (mapstructure.SetInt
         (λ n r, mkCustomObjectResult (MarketoGUID r) n (Fields r)));
    mapstructure.mkStructField "Fields"
      [("json", "-"); ("mapstructure", ",remain")]
      (mapstructure.SetMap
         (λ m r, mkCustomObjectResult (MarketoGUID r) (Sequence r) m)) ].

(** The zero value of the struct: [results[i]] before decoding. *)
Definition zero : CustomObjectResult := mkCustomObjectResult "" 0 ∅.

(** [mapstructure.Decode(l, &results[i])] *)
Definition decode_record (l : list (string * value))
  : outcome CustomObjectResult :=
  mapstructure.Decode CustomObjectResult_fields l zero.

(** The loop over [raw]: the first record that fails ends the call. *)
Fixpoint decode_records (raw : list (list (string * value)))
  : outcome (list CustomObjectResult) :=
  match raw with
  | [] => Ok []
  | l :: raw' =>
      r ← decode_record l;
      results ← decode_records raw';
      Ok (r :: results)
  end.

Section Filter.
Context `{url.Parser, json.Decoder}.

(** The operation label passed to handleError; the constant is declared
    outside the two files. *)
Variable filterLeads : string.

(** [query] stands for the options of the call: the result of
    [q.Values()] on them, encoded. *)
Definition Filter (c : Client) (ctx : Context) (name : string)
    (query : outcome string)
  : outcome (list CustomObjectResult * string) :=
  query ← query;
  match http.NewRequest http.MethodPost
          (url c ["rest"; "v1"; "customobjects";
                  Sprintf "%s.json?_method=GET" [AString name]])
          (Some query) with
  | Err _ =>
      (* request.Header.Add runs on the nil request before err is read *)
      Panic "nil pointer dereference"
  | Panic msg => Panic msg
  | Ok request =>
      let request :=
        http.Header_Add "Content-Type" "application/x-www-form-urlencoded"
          request in
      resp ← doRequest c request;
      if negb (http.StatusCode resp =? http.StatusOK) then
        Err (handleError filterLeads resp)
      else
        response ← json.Decode_Response (http.RespBody resp);
        raw ← json.Unmarshal_records (Result response);
        results ← decode_records raw;
        Ok (results, NextPageToken response)
  end.
End Filter.
End CustomObjects.

(** ** A sample environment

    Concrete collaborators on which the functions above run: a URL check,
    a lexer for CSV text without quotes, a JSON decoder that knows a few
    documents, and a client whose transport honours the context of the
    request it is given. *)

Module Sample.
Definition is_ctl (c : ascii) : bool :=
  let n := N_of_ascii c in ((n <? 32) || (n =? 127))%N.

Fixpoint has_ctl (s : string) : bool :=
  match s with
  | "" => false
  | String c s' => is_ctl c || has_ctl s'
  end.

#[export] Instance parser : url.Parser := λ u,
  if has_ctl u then Some (ErrOther "net/url" "invalid control character in URL")
  else None.

(** A line without its trailing carriage return. *)
Fixpoint trim_cr (l : string) : string :=
  match l with
  | "" => ""
  | String c l' =>
      if Ascii.eqb c CR && String.eqb l' "" then "" else String c (trim_cr l')
  end.

Definition lex_line (l : string) : csv.line :=
  if has_byte DQ l then csv.Bad [] (ErrOther "encoding/csv" "quoted field")
  else csv.Line (Split l ",").

Definition lex (body : Stream) : list csv.line :=
  (lex_line <$> filter (λ l, l ≠ "") (trim_cr <$> Split (bytes body) LF))
  ++ match ending body with
     | Some e => [csv.Bad [] e]
     | None => []
     end.

#[export] Instance lexer : csv.Lexer :=
  {| csv.lines := lex; csv.lines_empty := eq_refl |}.

Definition job (leads objects : Z) : BatchResult := {|
  BatchID := 7; ImportID := "7"; Status := BatchComplete;
  LeadsProcessed := leads; Failures := 1; Warnings := 0; Message := "";
  ObjectsProcessed := objects; ObjectName := ""; Processed := 0
|}.

(** The wire record of the decoder's description. *)
Definition wire_record : list (string * value) :=
  [("marketoGUID", VString "g1"); ("seq", VFloat64 3);
   ("color", VString "red"); ("size", VString "L")].

(** Four envelopes, named by their one-word bodies: one that reports
    an error, one whose result is a lead batch, one whose result is a
    batch with a negative lead counter, and one whose result is the wire
    record, with a page token. *)
#[export] Instance decoder : json.Decoder := {|
  json.Decode_Response body :=
    if String.eqb (bytes body) "rejected" then
      Ok (mkEnvelope [mkErrorEntry "1003: Empty file"] "" "")
    else if String.eqb (bytes body) "leads" then
      Ok (mkEnvelope [] "leads" "")
    else if String.eqb (bytes body) "negative" then
      Ok (mkEnvelope [] "negative" "")
    else if String.eqb (bytes body) "records" then
      Ok (mkEnvelope [] "records" "page2")
    else Err (ErrOther "encoding/json" "unexpected document");
  json.Unmarshal_BatchResults raw :=
    if String.eqb raw "leads" then Ok [job 5 0]
    else if String.eqb raw "negative" then Ok [job (-1) 0]
    else Err (ErrOther "encoding/json" "unexpected document");
  json.Unmarshal_records raw :=
    if String.eqb raw "records" then Ok [wire_record]
    else Err (ErrOther "encoding/json" "unexpected document")
|}.

Fixpoint join (segments : list string) : string :=
  match segments with
  | [] => ""
  | seg :: rest => "/" +:+ seg +:+ join rest
  end.

(** A client whose transport gives up when the context of the request
    is done, and answers every other request with [resp]. *)
Definition client (resp : http.Response) : Client := {|
  url segments := "https://example.mktorest.com" +:+ join segments;
  doRequest request :=
    match ctx_err (http.Ctx request) with
    | Some e => Err e
    | None => Ok resp
    end
|}.

Definition canceled : Context := {| ctx_err := Some ErrCanceled |}.

(** An answer whose body is read to its end. *)
Definition answer (code : Z) (body : string) : http.Response :=
  http.mkResponse code (mkStream body None).

Definition report : string :=
  "email,first_name,reason" +:+ String LF ""
  +:+ "a@x.com,Ann,invalid email" +:+ String LF "".

(** The report with a second row that lacks a cell, and a third row. *)
Definition torn_report : string :=
  report +:+ "b@x.com,Bob" +:+ String LF ""
  +:+ "c@x.com,Cy,late" +:+ String LF "".

(** A draw of thirty bytes for the boundary, and a stream that holds
    the delimiter of that boundary between two lines. *)
Definition draw : string := "0123456789abcdefghijklmnopqrst".

Definition collision : string :=
  "a,b" +:+ CRLF +:+ "--" +:+ multipart.hex draw +:+ CRLF +:+ CRLF +:+ "c,d".
End Sample.

(** ** Custom object metadata: [List] and [Describe] *)

Module Discovery.
Definition ObjectStateDraft : string := "draft".
Definition ObjectStateApproved : string := "approved".
Definition ObjectStateApprovedWithDraft : string := "approvedWithDraft".
Definition DraftVersion : string := "draft".
Definition ApprovedVersion : string := "approved".

Module RelatedObject.
Record t := mk { Field : string; Name : string }.
End RelatedObject.

Module ObjectRelation.
Record t := mk { Field : string; RelatedTo : RelatedObject.t; Type_ : string }.
End ObjectRelation.

Module ObjectField.
Record t := mk {
  DataType : string;
  DisplayName : string;
  Length : Z;
  Name : string;
  Updateable : bool;
  CRMManaged : bool;
  Searchable : bool
}.

(** [field.Searchable = b] on a copy of the field *)
Definition set_Searchable (b : bool) (f : t) : t :=
  {| DataType := DataType f; DisplayName := DisplayName f; Length := Length f;
     Name := Name f; Updateable := Updateable f; CRMManaged := CRMManaged f;
     Searchable := b |}.
End ObjectField.

(** [CreatedAt] and [UpdatedAt] are time.Time values, kept as instants. *)
Record CustomObjectMetadata := mkCustomObjectMetadata {
  IDField : string;
  APIName : string;
  Description : string;
  DisplayName : string;
  PluralName : string;
  Fields : list ObjectField.t;
  SearchableFields : list (list string);
  DedupeFields : list string;
  Relationships : list ObjectRelation.t;
  CreatedAt : Z;
  UpdatedAt : Z;
  State : string;
  Version : string
}.

(** [object[0].Fields[i] = field] for every [i], at once *)
Definition set_Fields (fields : list ObjectField.t) (o : CustomObjectMetadata)
  : CustomObjectMetadata :=
  {| IDField := IDField o; APIName := APIName o; Description := Description o;
     DisplayName := DisplayName o; PluralName := PluralName o;
     Fields := fields; SearchableFields := SearchableFields o;
     DedupeFields := DedupeFields o; Relationships := Relationships o;
     CreatedAt := CreatedAt o; UpdatedAt := UpdatedAt o;
     State := State o; Version := Version o |}.

Definition describeCustomObject : string := "describe custom object".
Definition listCustomObjects : string := "list custom objects".

(** [json.Unmarshal(raw, &objects)] on an empty slice of metadata: what
    the slice holds afterwards, and the error.  encoding/json may leave
    elements in the slice and report an error as well. *)
Class MetadataDecoder :=
  Unmarshal_Metadata : string → list CustomObjectMetadata * option error.

Section Discovery.
Context `{url.Parser, json.Decoder, MetadataDecoder}.

(** A Go return [(v, err)] of these two functions is [Ok (v, err)] when
    [v] is returned, with [err] possibly set, and [Err e] for
    [(nil, e)]. *)
Definition List (c : Client) (ctx : Context)
  : outcome (list CustomObjectMetadata * option error) :=
  request ← http.NewRequest http.MethodGet
    (url c ["rest"; "v1"; "customobjects.json"]) None;
  resp ← doRequest c request;
  if negb (http.StatusCode resp =? http.StatusOK) then
    Err (handleError listCustomObjects resp)
  else
    response ← json.Decode_Response (http.RespBody resp);
    Ok (Unmarshal_Metadata (Result response)).

(** The two loops over [object[0].SearchableFields] *)
Definition searchable_names (groups : list (list string)) : gmap string bool :=
  foldl (λ searchable s,
           foldl (λ searchable fld, <[fld := true]> searchable) searchable s)
        ∅ groups.

(** [searchable[name]], false for a missing key *)
Definition is_searchable (searchable : gmap string bool) (name : string) : bool :=
  default false (searchable !! name).

Definition Describe (c : Client) (ctx : Context) (name : string)
  : outcome (CustomObjectMetadata * option error) :=
  request ← http.NewRequest http.MethodGet
    (url c ["rest"; "v1"; "customobjects"; name; "describe.json"]) None;
  resp ← doRequest c request;
  if negb (http.StatusCode resp =? http.StatusOK) then
    Err (handleError describeCustomObject resp)
  else
    response ← json.Decode_Response (http.RespBody resp);
    let '(object, err) := Unmarshal_Metadata (Result response) in
    match object with
    | [] => Err ErrNotFound
    | object0 :: _ =>
        let searchable := searchable_names (SearchableFields object0) in
        let fields :=
          (λ field,
             ObjectField.set_Searchable
               (is_searchable searchable (ObjectField.Name field)) field)
          <$> Fields object0 in
        Ok (set_Fields fields object0, err)
    end.
End Discovery.
End Discovery.

(** The rows that [Failures] turns into failures: the rows as long as
    the header, up to the first line that is none. *)
Fixpoint rows_before_stop (header : list string) (pending : list csv.line)
  : list (list string) :=
  match pending with
  | csv.Line row :: rest =>
      if Nat.eqb (length row) (length header)
      then row :: rows_before_stop header rest
      else []
  | _ => []
  end.





(** The request of [Filter]. *)
Definition FilterRequest `{url.Parser} (c : Client) (name query : string)
  : outcome http.Request :=
  request ← http.NewRequest http.MethodPost
    (url c ["rest"; "v1"; "customobjects";
            Sprintf "%s.json?_method=GET" [AString name]])
    (Some query);
  Ok (http.Header_Add "Content-Type" "application/x-www-form-urlencoded" request).

(** ** More of the sample environment *)

Module Sample2.
(** Envelopes named by their one-word bodies: [empty] has an empty
    result, [batches] a result of two batches, [flagged] the wire record
    as result together with an error entry. *)
#[export] Instance decoder : json.Decoder := {|
  json.Decode_Response body :=
    if String.eqb (bytes body) "empty" then Ok (mkEnvelope [] "empty" "")
    else if String.eqb (bytes body) "batches" then Ok (mkEnvelope [] "batches" "")
    else if String.eqb (bytes body) "flagged" then
      Ok (mkEnvelope [mkErrorEntry "1004: Lead not found"] "records" "page2")
    else if String.eqb (bytes body) "mixed" then Ok (mkEnvelope [] "mixed" "")
    else if String.eqb (bytes body) "car" then Ok (mkEnvelope [] "car" "")
    else if String.eqb (bytes body) "garbled" then Ok (mkEnvelope [] "garbled" "")
    else Err (ErrOther "encoding/json" "unexpected document");
  json.Unmarshal_BatchResults raw :=
    if String.eqb raw "empty" then Ok []
    else if String.eqb raw "batches" then Ok [Sample.job 0 9; Sample.job 4 0]
    else Err (ErrOther "encoding/json" "unexpected document");
  json.Unmarshal_records raw :=
    if String.eqb raw "records" then Ok [Sample.wire_record]
    else if String.eqb raw "mixed" then
      Ok [Sample.wire_record; [("marketoGUID", VFloat64 7)]; []]
    else Err (ErrOther "encoding/json" "unexpected document")
|}.

Definition vin : Discovery.ObjectField.t :=
  Discovery.ObjectField.mk "string" "VIN" 36 "vin" false false false.

Definition color : Discovery.ObjectField.t :=
  Discovery.ObjectField.mk "string" "Color" 20 "color" true false true.

Definition car : Discovery.CustomObjectMetadata := {|
  Discovery.IDField := "marketoGUID"; Discovery.APIName := "car_c";
  Discovery.Description := ""; Discovery.DisplayName := "Car";
  Discovery.PluralName := "Cars"; Discovery.Fields := [vin; color];
  Discovery.SearchableFields := [["vin"]; ["marketoGUID"]];
  Discovery.DedupeFields := ["vin"]; Discovery.Relationships := [];
  Discovery.CreatedAt := 0; Discovery.UpdatedAt := 0;
  Discovery.State := Discovery.ObjectStateApproved;
  Discovery.Version := Discovery.ApprovedVersion
|}.

#[export] Instance metadata : Discovery.MetadataDecoder := λ raw,
  if String.eqb raw "car" then ([car], None)
  else ([], Some (ErrOther "encoding/json" "unexpected end of JSON input")).

(** A record with two spellings of the identifier key, in the two orders
    in which a map of two keys can be ranged over. *)
Definition two_spellings : list (string * value) :=
  [("MARKETOGUID", VString "a"); ("marketoguid", VString "b")].

(** A custom object name with a line feed in it. *)
Definition broken_name : string := "car" +:+ String LF "".
End Sample2.

(** * Properties *)

(** ** Record references *)

Lemma placeholders_app (a b : string) :
  has_byte "%" a = false → placeholders (a +:+ b) = placeholders b.
Proof.
  induction a as [|c a IH]; [done|].
  change (String c a +:+ b) with (String c (a +:+ b)).
  cbn [has_byte]. intros [Hc Ha]%orb_false_elim.
  cbn [placeholders]. rewrite (IH Ha).
  destruct c as [[] [] [] [] [] [] [] []]; try reflexivity; discriminate.
Qed.

Lemma custom_templates (apiName : string) :
  apiName ≠ "lead" →
  ImportObjectForAPIName apiName =
    {| create := "customobjects/" +:+ apiName +:+ "/import";
       status := "customobjects/" +:+ apiName +:+ "/import/%d/status";
       failures := "customobjects/" +:+ apiName +:+ "/import/%d/failures" |}.
Proof.
  intros Hne. unfold ImportObjectForAPIName, importObjects.
  rewrite lookup_singleton_ne by done. reflexivity.
Qed.

(** A custom object name without [%] gives templates with one integer
    placeholder for the batch, and none in the create path. *)
Lemma custom_templates_placeholders (apiName : string) :
  apiName ≠ "lead" → has_byte "%" apiName = false →
  let obj := ImportObjectForAPIName apiName in
  placeholders (create obj) = 0%nat ∧ placeholders (status obj) = 1%nat
  ∧ placeholders (failures obj) = 1%nat.
Proof.
  intros Hne Hpc. rewrite (custom_templates _ Hne). cbn [create status failures].
  rewrite !(placeholders_app "customobjects/") by reflexivity.
  rewrite !(placeholders_app apiName) by done.
  repeat split; reflexivity.
Qed.

(** C8: the name "lead" resolves to the fixed lead templates, every other
    name to the custom object import paths with the name embedded, and
    the templates of every known kind (every entry of the table) have
    one integer placeholder in the status and failures paths and none in
    the create path.  The function is total. *)
Theorem ImportObjectForAPIName_templates (apiName : string) :
  (apiName = "lead" → ImportObjectForAPIName apiName = Leads)
  ∧ (apiName ≠ "lead" →
     ImportObjectForAPIName apiName =
       {| create := "customobjects/" +:+ apiName +:+ "/import";
          status := "customobjects/" +:+ apiName +:+ "/import/%d/status";
          failures := "customobjects/" +:+ apiName +:+ "/import/%d/failures" |})
  ∧ (∀ obj, importObjects !! apiName = Some obj →
       ImportObjectForAPIName apiName = obj
       ∧ placeholders (create obj) = 0%nat
       ∧ placeholders (status obj) = 1%nat
       ∧ placeholders (failures obj) = 1%nat).
Proof.
  split; [intros ->; reflexivity|].
  split; [apply custom_templates|].
  intros obj Hobj. unfold ImportObjectForAPIName. rewrite Hobj.
  unfold importObjects in Hobj.
  apply lookup_singleton_Some in Hobj as [_ <-].
  repeat split; reflexivity.
Qed.

Lemma ImportObjectForAPIName_templates_witness :
  ImportObjectForAPIName "lead" = Leads
  ∧ create (ImportObjectForAPIName "car_c") = "customobjects/car_c/import"
  ∧ placeholders (status Leads) = 1%nat.
Proof.
  destruct (ImportObjectForAPIName_templates "lead") as (Hlead & _ & Hknown).
  destruct (ImportObjectForAPIName_templates "car_c") as (_ & Hcustom & _).
  split; [exact (Hlead eq_refl)|]. split.
  - rewrite Hcustom; [reflexivity | discriminate].
  - apply (Hknown Leads). reflexivity.
Defined.

(** ** Status codes, envelopes and the processed counter *)

Lemma bind_Ok {A B} (a : A) (k : A → outcome B) : Ok a ≫= k = k a.
Proof. reflexivity. Qed.

Lemma bind_Ok_inv {A B} (m : outcome A) (k : A → outcome B) (b : B) :
  m ≫= k = Ok b → ∃ a, m = Ok a ∧ k a = Ok b.
Proof. destruct m as [a| |]; [eauto | done | done]. Qed.

Lemma len_positive {A} (l : list A) :
  (0 <? len l) = match l with [] => false | _ => true end.
Proof. by destruct l. Qed.

Lemma len_below_one {A} (l : list A) :
  (len l <? 1) = match l with [] => true | _ => false end.
Proof. destruct l; [done|]. apply Z.ltb_ge. unfold len. simpl. lia. Qed.

Section ImportAPI_facts.
Context `{url.Parser, json.Decoder, csv.Lexer}.
Import ImportAPI.

Lemma derive_Processed_spec (r : BatchResult) :
  Processed (derive_Processed r) =
    (if 0 <? LeadsProcessed r then LeadsProcessed r else ObjectsProcessed r)
  ∧ LeadsProcessed (derive_Processed r) = LeadsProcessed r
  ∧ ObjectsProcessed (derive_Processed r) = ObjectsProcessed r.
Proof. unfold derive_Processed. by destruct (0 <? LeadsProcessed r). Qed.

(** What [Get] returns, as a function of what the transport and the
    decoders answer. *)
Lemma Get_Ok_inv i ctx obj id job :
  Get i ctx obj id = Ok job →
  ∃ r results, job = derive_Processed r ∧ ∃ req resp response,
    GetRequest i obj id = Ok req ∧ doRequest i req = Ok resp
    ∧ http.StatusCode resp = 200
    ∧ json.Decode_Response (http.RespBody resp) = Ok response
    ∧ Errors response = []
    ∧ json.Unmarshal_BatchResults (Result response) = Ok (r :: results).
Proof.
  unfold Get.
  intros (req & Hreq & (resp & Hresp & Hget)%bind_Ok_inv)%bind_Ok_inv.
  destruct (http.StatusCode resp =? http.StatusOK) eqn:Hcode; [|done].
  apply Z.eqb_eq in Hcode.
  apply bind_Ok_inv in Hget as (response & Hdec & Hget).
  rewrite len_positive in Hget.
  destruct (Errors response) as [|e es] eqn:Herrs; [|done].
  apply bind_Ok_inv in Hget as (result & Hres & Hget).
  rewrite len_below_one in Hget.
  destruct result as [|r results]; [done|].
  injection Hget as <-.
  exists r, results. split; [done|].
  exists req, resp, response. by rewrite Herrs.
Qed.

(** C3, as amended: the job that [Get] returns has [Processed] equal to
    the lead counter when that counter is positive and to the object
    counter otherwise; a zero value is never selected while the other
    counter is positive. *)
Theorem Get_Processed i ctx obj id job :
  Get i ctx obj id = Ok job →
  (0 < LeadsProcessed job → Processed job = LeadsProcessed job)
  ∧ (LeadsProcessed job ≤ 0 → Processed job = ObjectsProcessed job)
  ∧ (Processed job = 0 →
     ¬ 0 < LeadsProcessed job ∧ ¬ 0 < ObjectsProcessed job).
Proof.
  intros (r & results & -> & _)%Get_Ok_inv.
  destruct (derive_Processed_spec r) as (HP & -> & ->). rewrite HP.
  destruct (0 <? LeadsProcessed r) eqn:Hpos;
    [apply Z.ltb_lt in Hpos | apply Z.ltb_ge in Hpos]; lia.
Qed.

(** C5: on a 404 answer [Failures] returns the empty list and no error;
    on any other answer that is not 200 it returns the HTTP status
    error labelled "get import failures" with the status. *)
Theorem Failures_status i ctx obj id req resp :
  FailuresRequest i obj id = Ok req →
  doRequest i req = Ok resp →
  (http.StatusCode resp = 404 → Failures i ctx obj id = Ok [])
  ∧ (http.StatusCode resp ≠ 404 → http.StatusCode resp ≠ 200 →
     Failures i ctx obj id =
       Err (ErrHTTPStatus "get import failures" (http.StatusCode resp))).
Proof.
  intros Hreq Hresp. unfold Failures. rewrite Hreq, bind_Ok, Hresp, bind_Ok.
  unfold http.StatusNotFound, http.StatusOK. split.
  - intros ->. reflexivity.
  - intros Hne404%Z.eqb_neq Hne200%Z.eqb_neq. by rewrite Hne404, Hne200.
Qed.

(** C6: when the answer has status 200 and the decoded envelope carries
    error entries, [Create] and [Get] fail with the API error built
    from the status and all the entries. *)
Theorem envelope_errors i ctx obj resp response :
  http.StatusCode resp = 200 →
  json.Decode_Response (http.RespBody resp) = Ok response →
  Errors response ≠ [] →
  (∀ file rnd req,
      CreateRequest i obj file rnd = Ok req → doRequest i req = Ok resp →
      Create i ctx obj file rnd = Err (ErrAPI 200 (Errors response)))
  ∧ (∀ id req,
      GetRequest i obj id = Ok req → doRequest i req = Ok resp →
      Get i ctx obj id = Err (ErrAPI 200 (Errors response))).
Proof.
  intros Hcode Hdec Herrs.
  assert ((0 <? len (Errors response)) = true) as Hlen.
  { rewrite len_positive. by destruct (Errors response). }
  split.
  - intros file rnd req Hreq Hresp. unfold Create.
    rewrite Hreq, bind_Ok, Hresp, bind_Ok, Hcode. cbn [Z.eqb Pos.eqb negb].
    rewrite Hdec, bind_Ok, Hlen.
    reflexivity.
  - intros id req Hreq Hresp. unfold Get.
    rewrite Hreq, bind_Ok, Hresp, bind_Ok, Hcode. cbn [Z.eqb Pos.eqb negb].
    rewrite Hdec, bind_Ok, Hlen.
    reflexivity.
Qed.

(** C10: on a 200 answer, when the first read of the CSV body, the
    header, fails, [Failures] fails with that error; an empty body is
    such a case, with [io.EOF]. *)
Theorem Failures_header_error i ctx obj id req resp :
  FailuresRequest i obj id = Ok req →
  doRequest i req = Ok resp →
  http.StatusCode resp = 200 →
  (∀ record e reader,
      csv.Read (csv.NewReader (http.RespBody resp)) = (record, Some e, reader) →
      Failures i ctx obj id = Err e)
  ∧ (http.RespBody resp = mkStream "" None → Failures i ctx obj id = Err EOF).
Proof.
  intros Hreq Hresp Hcode.
  assert (∀ record e reader,
    csv.Read (csv.NewReader (http.RespBody resp)) = (record, Some e, reader) →
    Failures i ctx obj id = Err e) as Hfirst.
  { intros record e reader Hread. unfold Failures.
    rewrite Hreq, bind_Ok, Hresp, bind_Ok, Hcode. cbn [Z.eqb Pos.eqb negb].
    by rewrite Hread. }
  split; [exact Hfirst|].
  intros Hbody. apply (Hfirst [] EOF (csv.NewReader (http.RespBody resp))).
  unfold csv.Read, csv.NewReader. cbn [csv.pending].
  by rewrite Hbody, csv.lines_empty.
Qed.

(** C2, as amended: [Create], [Get] and [Failures] do not consult their
    context argument: the outcome of a call is the same for every
    context, and the request handed to the transport carries the
    background context. *)
Theorem context_not_consulted i obj id file rnd :
  (∀ ctx ctx',
      Create i ctx obj file rnd = Create i ctx' obj file rnd
      ∧ Get i ctx obj id = Get i ctx' obj id
      ∧ Failures i ctx obj id = Failures i ctx' obj id)
  ∧ (∀ req,
      (CreateRequest i obj file rnd = Ok req) ∨ (GetRequest i obj id = Ok req)
      ∨ (FailuresRequest i obj id = Ok req) →
      http.Ctx req = Background).
Proof.
  split; [done|].
  unfold CreateRequest, GetRequest, FailuresRequest, http.NewRequest, io_Copy.
  intros req [Hreq|[Hreq|Hreq]]; revert Hreq.
  - destruct (ending file); [done|]. cbn.
    case_match; [done|]. cbn. by intros [= <-].
  - case_match; [done|]. by intros [= <-].
  - case_match; [done|]. by intros [= <-].
Qed.
End ImportAPI_facts.

(** ** The properties on the sample environment *)

Section Sample_runs.
Import ImportAPI Sample.

Lemma Get_Processed_witness :
  Get (client (answer 200 "leads")) Background Leads 7
    = Ok (set_Processed 5 (job 5 0))
  ∧ Processed (set_Processed 5 (job 5 0)) = 5.
Proof.
  split; [reflexivity|].
  apply (@Get_Processed parser decoder
           (client (answer 200 "leads")) Background Leads 7);
    [reflexivity | simpl; lia].
Defined.

(** C3, as stated, fails: with a lead counter of -1 and an object
    counter of 0 the object counter is selected: the zero counter, while
    the other one is not zero. *)
Lemma Get_selects_zero_counter :
  Get (client (answer 200 "negative")) Background Leads 7 = Ok (job (-1) 0)
  ∧ Processed (job (-1) 0) = ObjectsProcessed (job (-1) 0)
  ∧ ObjectsProcessed (job (-1) 0) = 0
  ∧ LeadsProcessed (job (-1) 0) ≠ 0.
Proof. split_and!; [reflexivity.. | discriminate]. Qed.

Lemma Failures_status_witness :
  Failures (client (answer 404 "")) Background Leads 7 = Ok []
  ∧ Failures (client (answer 500 "")) Background Leads 7
    = Err (ErrHTTPStatus "get import failures" 500).
Proof.
  split.
  - refine (proj1 (@Failures_status parser lexer
                     (client (answer 404 "")) Background Leads 7
                     _ _ eq_refl eq_refl) eq_refl).
  - refine (proj2 (@Failures_status parser lexer
                     (client (answer 500 "")) Background Leads 7
                     _ _ eq_refl eq_refl) _ _); discriminate.
Defined.

Lemma envelope_errors_witness :
  Create (client (answer 200 "rejected")) Background Leads
    (mkStream "email" None) "0123456789"
    = Err (ErrAPI 200 [mkErrorEntry "1003: Empty file"])
  ∧ Get (client (answer 200 "rejected")) Background Leads 7
    = Err (ErrAPI 200 [mkErrorEntry "1003: Empty file"]).
Proof.
  assert (Errors (mkEnvelope [mkErrorEntry "1003: Empty file"] "" "") ≠ [])
    as Hentries by discriminate.
  destruct (@envelope_errors parser decoder
              (client (answer 200 "rejected")) Background Leads
              (answer 200 "rejected")
              (mkEnvelope [mkErrorEntry "1003: Empty file"] "" "")
              eq_refl eq_refl Hentries)
    as [HCreate HGet].
  split.
  - eapply HCreate; reflexivity.
  - eapply HGet; reflexivity.
Defined.

Lemma Failures_header_error_witness :
  Failures (client (answer 200 "")) Background Leads 7 = Err EOF.
Proof.
  refine (proj2 (@Failures_header_error parser lexer
                   (client (answer 200 "")) Background
                   Leads 7 _ _ eq_refl eq_refl eq_refl) eq_refl).
Defined.

Lemma context_not_consulted_witness :
  Get (client (answer 200 "leads")) canceled Leads 7
    = Get (client (answer 200 "leads")) Background Leads 7
  ∧ http.Ctx (http.mkRequest "GET"
                "https://example.mktorest.com/bulk/v1/leads/batch/7.json"
                None [] Background) = Background.
Proof.
  destruct (@context_not_consulted parser decoder lexer
              (client (answer 200 "leads")) Leads 7
              (mkStream "" None) "") as [Hsame Hctx].
  split; [apply Hsame|].
  apply Hctx. right; left. reflexivity.
Defined.

(** C2, as stated, fails: the transport of [client] gives up with the
    canceled condition on a request whose context is done, and yet
    [Failures], called with a context that is done, returns the
    failures of the report. *)
Lemma canceled_context_ignored :
  doRequest (client (answer 200 report))
    (http.mkRequest "GET"
       "https://example.mktorest.com/bulk/v1/leads/batch/7/failures.json"
       None [] canceled) = Err ErrCanceled
  ∧ Failures (client (answer 200 report)) canceled Leads 7
    = Ok [ {| Reason := "invalid email";
              Fields := {[ "email" := VString "a@x.com";
                           "first_name" := VString "Ann" ]} |} ].
Proof. split; [reflexivity | vm_compute; reflexivity]. Qed.
End Sample_runs.

(** ** The failure report *)

Section CSV_facts.
Import ImportAPI.

Lemma index_lookup {A} (l : list A) (i : nat) (x : A) :
  l !! i = Some x → index l (Z.of_nat i) = Ok x.
Proof.
  intros Hx. unfold index.
  destruct (Z.of_nat i <? 0) eqn:Hneg; [apply Z.ltb_lt in Hneg; lia|].
  by rewrite Nat2Z.id, Hx.
Qed.

Lemma scan_unfold header reader record err failures :
  scan header reader record err failures =
    match err with
    | Some _ => Ok failures
    | None =>
        match row_failure header record with
        | Ok failure =>
            let '(record', err', reader') := csv.Read reader in
            scan header reader' record' err' (failures ++ [failure])
        | Err e => Err e
        | Panic msg => Panic msg
        end
    end.
Proof.
  destruct err as [e|]; simp scan; [done|].
  destruct (row_failure header record); simpl; [|done..].
  by destruct (csv.Read reader) as [[l o] r].
Qed.

(** The inner loop enters the cells of the first columns in order. *)
Lemma fill_from (header row : list string) (k i : nat) fields :
  (i + k ≤ length header)%nat → length row = length header →
  foldl (λ acc j,
           fields ← acc;
           h ← index header j;
           c ← index row j;
           Ok (<[h := VString c]> fields))
        (Ok fields) (seqZ (Z.of_nat i) (Z.of_nat k))
  = Ok (foldl enter fields (zip (take k (drop i header)) (drop i row))).
Proof.
  revert i fields. induction k as [|k IH]; intros i fields Hik Hlen.
  - reflexivity.
  - destruct (lookup_lt_is_Some_2 header i) as [h Hh]; [lia|].
    destruct (lookup_lt_is_Some_2 row i) as [c Hc]; [lia|].
    rewrite seqZ_cons by lia. cbn [foldl].
    rewrite bind_Ok, (index_lookup _ _ _ Hh), bind_Ok,
      (index_lookup _ _ _ Hc), bind_Ok.
    replace (Z.succ (Z.of_nat i)) with (Z.of_nat (S i)) by lia.
    replace (Z.pred (Z.of_nat (S k))) with (Z.of_nat k) by lia.
    rewrite IH by lia.
    rewrite (drop_S header h i Hh), (drop_S row c i Hc). reflexivity.
Qed.

Lemma fill_Fields_spec (header row : list string) :
  header ≠ [] → length row = length header →
  fill_Fields header row
  = Ok (foldl enter ∅ (zip (take (length header - 1) header) row)).
Proof.
  intros Hne Hlen. unfold fill_Fields, len.
  assert (length header ≠ 0%nat) by by destruct header.
  replace (Z.of_nat (length header) - 1) with (Z.of_nat (length header - 1))
    by lia.
  by rewrite (fill_from header row (length header - 1) 0) by (simpl; lia).
Qed.

(** One turn of the loop on a row as long as the header. *)
Lemma row_failure_spec (header row : list string) :
  header ≠ [] → length row = length header →
  row_failure header row = Ok (failure_of header row).
Proof.
  intros Hne Hlen. unfold row_failure, failure_of, len.
  assert (length header ≠ 0%nat) by by destruct header.
  destruct (lookup_lt_is_Some_2 row (length header - 1)) as [c Hc]; [lia|].
  replace (Z.of_nat (length header) - 1) with (Z.of_nat (length header - 1))
    by lia.
  rewrite (index_lookup _ _ _ Hc), bind_Ok, fill_Fields_spec, bind_Ok by done.
  rewrite last_lookup, Hlen.
  replace (Init.Nat.pred (length header)) with (length header - 1)%nat by lia.
  by rewrite Hc.
Qed.

Lemma Read_header `{csv.Lexer} (body : Stream) header rest :
  header ≠ [] → csv.lines body = csv.Line header :: rest →
  csv.Read (csv.NewReader body) = (header, None, behind header rest).
Proof.
  intros Hne Hlines. unfold csv.Read, csv.NewReader. cbn. by rewrite Hlines.
Qed.

Lemma len_pos (header : list string) : header ≠ [] → (0 <? len header) = true.
Proof. intros. rewrite len_positive. by destruct header. Qed.

Lemma Read_row header row rest :
  header ≠ [] → length row = length header →
  csv.Read (behind header (csv.Line row :: rest))
  = (row, None, behind header rest).
Proof.
  intros Hne Hlen. unfold csv.Read, behind. cbn.
  rewrite (len_pos _ Hne).
  replace (len row =? len header) with true; [done|].
  symmetry. apply Z.eqb_eq. unfold len. by rewrite Hlen.
Qed.

Lemma Read_stop header pending :
  header ≠ [] → stops header pending →
  ∃ record e reader,
    csv.Read (behind header pending) = (record, Some e, reader).
Proof.
  intros Hne Hstop. unfold csv.Read, behind. cbn.
  destruct pending as [|[row|fields e] rest]; [by eauto| |].
  - rewrite (len_pos _ Hne).
    replace (len row =? len header) with false; [by eauto|].
    symmetry. apply Z.eqb_neq. unfold len. cbn in Hstop. lia.
  - rewrite (len_pos _ Hne). by eauto.
Qed.

(** The loop over the data rows: rows as long as the header are turned
    into failures, up to the first line that stops the scan. *)
Lemma scan_rows header rows pending failures :
  header ≠ [] → Forall (λ row, length row = length header) rows →
  stops header pending →
  (let '(record, err, reader) :=
     csv.Read (behind header ((csv.Line <$> rows) ++ pending)) in
   scan header reader record err failures)
  = Ok (failures ++ (failure_of header <$> rows)).
Proof.
  intros Hne Hrows Hstop. revert failures.
  induction Hrows as [|row rows Hrow Hrows IH]; intros failures.
  - cbn [fmap list_fmap app].
    destruct (Read_stop header pending Hne Hstop) as (record & e & reader & ->).
    by rewrite scan_unfold, app_nil_r.
  - cbn [fmap list_fmap app]. rewrite (Read_row _ _ _ Hne Hrow).
    rewrite scan_unfold, (row_failure_spec _ _ Hne Hrow).
    rewrite IH. by rewrite <- app_assoc.
Qed.

Lemma foldl_enter_dom (l : list (string * string)) (m : gmap string value) :
  dom (foldl enter m l) = dom m ∪ list_to_set l.*1.
Proof.
  revert m. induction l as [|[h c] l IH]; intros m; cbn [foldl].
  - set_solver.
  - rewrite IH. unfold enter. rewrite dom_insert_L. set_solver.
Qed.

Lemma foldl_enter_notin (l : list (string * string)) (m : gmap string value) h :
  h ∉ l.*1 → foldl enter m l !! h = m !! h.
Proof.
  revert m. induction l as [|[h' c] l IH]; intros m Hnotin; cbn [foldl]; [done|].
  rewrite IH by set_solver. unfold enter. cbn.
  rewrite lookup_insert_ne; [done|set_solver].
Qed.

Lemma foldl_enter_last (l1 l2 : list (string * string)) m h c :
  h ∉ l2.*1 → foldl enter m (l1 ++ (h, c) :: l2) !! h = Some (VString c).
Proof.
  intros Hnotin. rewrite foldl_app. cbn [foldl].
  rewrite foldl_enter_notin by done. unfold enter. cbn.
  by rewrite lookup_insert_eq.
Qed.

(** The failure of a row, cell by cell: the reason is the last cell,
    the field names are the header names of the columns before the
    last, and under a name stands the cell of the last such column
    with that name. *)
Lemma failure_of_spec (header row : list string) :
  header ≠ [] → length row = length header →
  last row = Some (Reason (failure_of header row))
  ∧ dom (Fields (failure_of header row))
    = list_to_set (take (length header - 1) header)
  ∧ ∀ (j : nat) h c,
      (j < length header - 1)%nat →
      header !! j = Some h → row !! j = Some c →
      (∀ j' : nat, (j < j' < length header - 1)%nat → header !! j' ≠ Some h) →
      Fields (failure_of header row) !! h = Some (VString c).
Proof.
  intros Hne Hlen. unfold failure_of. cbn [Reason Fields].
  assert (length header ≠ 0%nat) as Hpos by by destruct header.
  set (k := (length header - 1)%nat).
  split_and!.
  - destruct (last row) as [c|] eqn:Hlast; [done|].
    apply last_None in Hlast. subst row. simpl in Hlen. lia.
  - rewrite foldl_enter_dom, fst_zip; [set_solver|].
    rewrite length_take. lia.
  - intros j h c Hj Hh Hc Hlater.
    assert (take k header !! j = Some h) as Hh'
      by by rewrite lookup_take_lt.
    rewrite <- (take_drop_middle _ _ _ Hh'), <- (take_drop_middle _ _ _ Hc).
    rewrite zip_with_app
      by (rewrite !length_take; unfold k; lia).
    cbn [zip_with]. apply foldl_enter_last.
    rewrite fst_zip by (rewrite !length_drop, length_take; unfold k; lia).
    intros (i & Hi)%list_elem_of_lookup.
    rewrite lookup_drop in Hi.
    apply lookup_take_Some in Hi as [Hi Hlt].
    by apply (Hlater (S j + i)%nat); [lia|].
Qed.

Context `{url.Parser, csv.Lexer}.

(** [Failures] on a 200 answer whose body is a header row, rows as long
    as the header, and then whatever stops the scan. *)
Lemma Failures_scan i ctx obj id req resp header rows pending :
  FailuresRequest i obj id = Ok req →
  doRequest i req = Ok resp →
  http.StatusCode resp = 200 →
  csv.lines (http.RespBody resp)
    = csv.Line header :: (csv.Line <$> rows) ++ pending →
  header ≠ [] →
  Forall (λ row, length row = length header) rows →
  stops header pending →
  Failures i ctx obj id = Ok (failure_of header <$> rows).
Proof.
  intros Hreq Hresp Hcode Hlines Hne Hrows Hstop. unfold Failures.
  rewrite Hreq, bind_Ok, Hresp, bind_Ok, Hcode. cbn [Z.eqb Pos.eqb negb].
  rewrite (Read_header _ _ _ Hne Hlines).
  apply (scan_rows header rows pending [] Hne Hrows Hstop).
Qed.

(** C4: on a 200 answer whose body is a well-formed header row, [k]
    well-formed data rows and then a malformed row or a read error,
    [Failures] returns the [k] failures of those rows and no error. *)
Theorem Failures_partial i ctx obj id req resp header rows bad rest :
  FailuresRequest i obj id = Ok req →
  doRequest i req = Ok resp →
  http.StatusCode resp = 200 →
  csv.lines (http.RespBody resp)
    = csv.Line header :: (csv.Line <$> rows) ++ bad :: rest →
  header ≠ [] →
  Forall (λ row, length row = length header) rows →
  malformed header bad →
  Failures i ctx obj id = Ok (failure_of header <$> rows)
  ∧ length (failure_of header <$> rows) = length rows.
Proof.
  intros Hreq Hresp Hcode Hlines Hne Hrows Hbad.
  split; [|apply length_fmap].
  by apply (Failures_scan i ctx obj id req resp header rows (bad :: rest)).
Qed.

(** C7: on a 200 answer whose body is a well-formed CSV document,
    [Failures] returns one failure per data row, in order; the reason
    of a failure is the last cell of its row, its field names are the
    header names of the columns before the last, and each cell before
    the last stands under the header name of its column (under a name
    that several columns bear, the cell of the last of them). *)
Theorem Failures_rows i ctx obj id req resp header rows :
  FailuresRequest i obj id = Ok req →
  doRequest i req = Ok resp →
  http.StatusCode resp = 200 →
  csv.lines (http.RespBody resp) = csv.Line header :: (csv.Line <$> rows) →
  header ≠ [] →
  Forall (λ row, length row = length header) rows →
  Failures i ctx obj id = Ok (failure_of header <$> rows)
  ∧ Forall (λ row,
      last row = Some (Reason (failure_of header row))
      ∧ dom (Fields (failure_of header row))
        = list_to_set (take (length header - 1) header)
      ∧ ∀ (j : nat) h c,
          (j < length header - 1)%nat →
          header !! j = Some h → row !! j = Some c →
          (∀ j' : nat, (j < j' < length header - 1)%nat →
                       header !! j' ≠ Some h) →
          Fields (failure_of header row) !! h = Some (VString c)) rows.
Proof.
  intros Hreq Hresp Hcode Hlines Hne Hrows. split.
  - apply (Failures_scan i ctx obj id req resp header rows []); try done.
    by rewrite app_nil_r.
  - eapply Forall_impl; [exact Hrows|].
    intros row Hrow. by apply failure_of_spec.
Qed.
End CSV_facts.

Section Sample_reports.
Import ImportAPI Sample.

Lemma Failures_partial_witness :
  Failures (client (answer 200 torn_report)) Background Leads 7
  = Ok [ {| Reason := "invalid email";
            Fields := {[ "email" := VString "a@x.com";
                         "first_name" := VString "Ann" ]} |} ].
Proof.
  refine (eq_trans (proj1 (@Failures_partial parser lexer
    (client (answer 200 torn_report)) Background Leads 7 _ _
    ["email"; "first_name"; "reason"] [["a@x.com"; "Ann"; "invalid email"]]
    (csv.Line ["b@x.com"; "Bob"]) [csv.Line ["c@x.com"; "Cy"; "late"]]
    eq_refl eq_refl eq_refl eq_refl _ _ _)) _).
  - discriminate.
  - repeat constructor.
  - simpl. lia.
  - vm_compute. reflexivity.
Defined.

(** The report of the format's description: a header and one row. *)
Lemma Failures_rows_witness :
  Failures (client (answer 200 report)) Background Leads 7
  = Ok [ {| Reason := "invalid email";
            Fields := {[ "email" := VString "a@x.com";
                         "first_name" := VString "Ann" ]} |} ].
Proof.
  refine (eq_trans (proj1 (@Failures_rows parser lexer
    (client (answer 200 report)) Background Leads 7 _ _
    ["email"; "first_name"; "reason"] [["a@x.com"; "Ann"; "invalid email"]]
    eq_refl eq_refl eq_refl eq_refl _ _)) _).
  - discriminate.
  - repeat constructor.
  - vm_compute. reflexivity.
Defined.
End Sample_reports.

(** ** Custom object records *)

Section Records.
Import CustomObjects Sample.

(** C1 on the code: decoding the record
    [{marketoGUID: g1, seq: 3, color: red, size: L}] promotes
    [marketoGUID], found without regard to case under the field name
    [MarketoGUID], and leaves [Sequence] at zero: the field has no
    mapstructure tag, so its name is [Sequence], which the key [seq]
    does not match; [seq] stays in the residual map with the other
    keys.  The same holds on the whole path of [Filter], for an answer
    whose result is that record. *)
Theorem decode_record_seq :
  decode_record wire_record
  = Ok {| MarketoGUID := "g1";
          Sequence := 0;
          Fields := {[ "seq" := VFloat64 3; "color" := VString "red";
                       "size" := VString "L" ]} |}
  ∧ Filter "filter leads" (client (answer 200 "records")) Background "car_c"
      (Ok "filterType=vin&filterValues=1")
    = Ok ([ {| MarketoGUID := "g1";
               Sequence := 0;
               Fields := {[ "seq" := VFloat64 3; "color" := VString "red";
                            "size" := VString "L" ]} |} ], "page2").
Proof. split; vm_compute; reflexivity. Qed.

(** The names under which mapstructure looks the fields up. *)
Lemma CustomObjectResult_names :
  mapstructure.fieldName <$> CustomObjectResult_fields
  = ["MarketoGUID"; "Sequence"; "Fields"]
  ∧ mapstructure.has_remain <$> CustomObjectResult_fields
    = [false; false; true].
Proof. split; reflexivity. Qed.

(** Only a key that reads [Sequence], whatever the case of its letters,
    fills the sequence. *)
Lemma decode_record_sequence :
  decode_record [("sequence", VFloat64 3); ("marketoGUID", VString "g1")]
  = Ok {| MarketoGUID := "g1"; Sequence := 3; Fields := ∅ |}.
Proof. vm_compute. reflexivity. Qed.
End Records.

Section Records_general.
Import CustomObjects mapstructure.

Lemma decode_record_unfold (l : list (string * value)) :
  decode_record l =
    let f1 := mkStructField "MarketoGUID" [("json", "marketoGUID")]
      (SetString (λ s r, mkCustomObjectResult s (Sequence r) (Fields r))) in
    let f2 := mkStructField "Sequence" [("json", "seq")]
      (SetInt (λ n r, mkCustomObjectResult (MarketoGUID r) n (Fields r))) in
    let f3 := mkStructField "Fields"
      [("json", "-"); ("mapstructure", ",remain")]
      (SetMap (λ m r, mkCustomObjectResult (MarketoGUID r) (Sequence r) m)) in
    let st := decode_one l (decode_one l (mkState zero l.*1 []) f1) f2 in
    let st := decode_remain l st (Some f3) in
    match errors st with
    | [] => Ok (out st)
    | msgs => Err (ErrDecode msgs)
    end.
Proof. reflexivity. Qed.

Lemma find_key_matches name data k v :
  find_key name data = Some (k, v) → k = name ∨ EqualFold k name = true.
Proof.
  unfold find_key. destruct (MapIndex name data).
  - intros [= <- _]. by left.
  - intros [_ Hfold]%find_some. by right.
Qed.

Lemma remaining_lookup data unused k :
  remaining data unused !! k
  = if decide (k ∈ unused) then MapIndex k data else None.
Proof.
  unfold remaining. induction unused as [|k' unused IH]; cbn [omap list_omap].
  - by rewrite decide_False by set_solver.
  - destruct (decide (k = k')) as [->|Hne].
    + rewrite decide_True by set_solver.
      destruct (MapIndex k' data) as [v|] eqn:Hv; cbn.
      * by rewrite lookup_insert_eq.
      * rewrite IH. by case_decide.
    + destruct (MapIndex k' data) as [v|] eqn:Hv; cbn.
      * rewrite lookup_insert_ne by done. rewrite IH.
        repeat case_decide; set_solver.
      * rewrite IH. repeat case_decide; set_solver.
Qed.

Lemma MapIndex_elem data k v : MapIndex k data = Some v → k ∈ data.*1.
Proof.
  induction data as [|[k' v'] data IH]; cbn; [done|].
  destruct (String.eqb_spec k' k) as [->|]; set_solver.
Qed.

(** A step of the decoder keeps among the unused keys every key that
    does not match the name of the field. *)
Lemma decode_one_keeps {T} data (st : state T) (f : StructField T) k :
  k ∈ unused st → k ≠ fieldName f → EqualFold k (fieldName f) = false →
  k ∈ unused (decode_one data st f).
Proof.
  intros Hin Hne Hfold. unfold decode_one.
  destruct (find_key (fieldName f) data) as [[k' v']|] eqn:Hfind; [|done].
  assert (k ≠ k') as Hk'.
  { intros <-. apply find_key_matches in Hfind as [?|?]; congruence. }
  destruct (decode_field _ _ _ _); cbn; by apply list_elem_of_filter.
Qed.

Lemma decode_one_Sequence data (st : state CustomObjectResult) k :
  Sequence (out (decode_one data st
    (mkStructField k [("json", "marketoGUID")]
       (SetString (λ s r, mkCustomObjectResult s (Sequence r) (Fields r))))))
  = Sequence (out st).
Proof.
  unfold decode_one. destruct (find_key _ data) as [[k' v']|]; [|done].
  unfold decode_field. cbn. by destruct v'.
Qed.

(** For every record that decodes: the entry under the key [seq] is in
    the residual map, and without a key that reads [Sequence] the
    sequence is zero. *)
Lemma seq_is_residual (l : list (string * value)) r v :
  decode_record l = Ok r → MapIndex "seq" l = Some v →
  Fields r !! "seq" = Some v
  ∧ (find_key "Sequence" l = None → Sequence r = 0).
Proof.
  rewrite decode_record_unfold. cbv zeta.
  set (f1 := mkStructField "MarketoGUID" _ _).
  set (f2 := mkStructField "Sequence" _ _).
  set (st1 := decode_one l _ f1). set (st2 := decode_one l st1 f2).
  intros Hdec Hseq.
  assert ("seq" ∈ unused st2) as Hunused.
  { apply decode_one_keeps; [|done..].
    apply decode_one_keeps; [|done..]. by eapply MapIndex_elem. }
  unfold decode_remain in Hdec. cbn [field] in Hdec.
  rewrite len_positive in Hdec.
  destruct (unused st2) as [|k ks] eqn:Hks; [set_solver|].
  cbn [errors out] in Hdec.
  destruct (errors st2) eqn:Herr; [|done]. injection Hdec as <-.
  cbn [Fields Sequence]. split.
  - rewrite remaining_lookup. by rewrite decide_True.
  - intros Hnone. unfold st2, decode_one. cbn [fieldName]. 
    change (fieldName f2) with "Sequence". rewrite Hnone.
    unfold st1, f1. by rewrite decode_one_Sequence.
Qed.
End Records_general.

(** ** The multipart body *)

Section Strings.
Lemma app_cons (c : ascii) (a b : string) :
  String c a +:+ b = String c (a +:+ b).
Proof. reflexivity. Qed.

Lemma app_nil_l (a : string) : "" +:+ a = a.
Proof. reflexivity. Qed.

Lemma app_nil_r' (a : string) : a +:+ "" = a.
Proof. induction a as [|x a IH]; [done|]. by rewrite app_cons, IH. Qed.

Lemma app_assoc' (a b c : string) : (a +:+ b) +:+ c = a +:+ b +:+ c.
Proof. induction a as [|x a IH]; [done|]. by rewrite !app_cons, IH. Qed.

Lemma length_app' (a b : string) :
  String.length (a +:+ b) = (String.length a + String.length b)%nat.
Proof. induction a as [|x a IH]; [done|]. rewrite app_cons. cbn. by rewrite IH. Qed.

Lemma has_prefix_refl (p s : string) : has_prefix p (p +:+ s) = true.
Proof.
  induction p as [|x p IH]; [by destruct s|].
  rewrite app_cons. cbn. by rewrite Ascii.eqb_refl, IH.
Qed.

Lemma has_prefix_same (p : string) : has_prefix p p = true.
Proof. rewrite <- (app_nil_r' p) at 2. apply has_prefix_refl. Qed.

Lemma skip_app (p s : string) : skip (String.length p) (p +:+ s) = s.
Proof. induction p as [|x p IH]; [done|]. by rewrite app_cons. Qed.

Lemma has_byte_app (c : ascii) (a b : string) :
  has_byte c (a +:+ b) = has_byte c a || has_byte c b.
Proof.
  induction a as [|x a IH]; [done|].
  rewrite app_cons. cbn. by rewrite IH, orb_assoc.
Qed.

Lemma Cut_prefix (sep s : string) :
  has_prefix sep s = true → Cut sep s = Some ("", skip (String.length sep) s).
Proof. intros Hp. destruct s; cbn; by rewrite Hp. Qed.

Lemma Cut_here (sep s : string) : Cut sep (sep +:+ s) = Some ("", s).
Proof. by rewrite Cut_prefix, skip_app by apply has_prefix_refl. Qed.

Lemma Cut_None_cons (sep : string) (c : ascii) (s : string) :
  Cut sep (String c s) = None →
  has_prefix sep (String c s) = false ∧ Cut sep s = None.
Proof.
  cbn. destruct (has_prefix sep (String c s)); [done|].
  by destruct (Cut sep s) as [[??]|].
Qed.

(** When [p] is a prefix of [x ++ y], it is a prefix of [x], or it
    runs over the end of [x] into [y]. *)
Lemma has_prefix_app_inv (p x y : string) :
  has_prefix p (x +:+ y) = true →
  has_prefix p x = true ∨ ∃ p2, p = x +:+ p2 ∧ has_prefix p2 y = true.
Proof.
  revert p. induction x as [|a x IH]; intros p Hp; [right; by exists p|].
  destruct p as [|q p]; [by left|].
  rewrite app_cons in Hp. cbn in Hp.
  apply andb_prop in Hp as [->%Ascii.eqb_eq Hp].
  destruct (IH p Hp) as [Hx|(p2 & -> & Hy)].
  - left. cbn. by rewrite Ascii.eqb_refl.
  - right. by exists p2.
Qed.

(** A separator whose first byte does not come back in it does not
    straddle the end of a text that is followed by the separator. *)
Lemma no_straddle (c0 : ascii) (sep' x after : string) :
  has_byte c0 sep' = false →
  x ≠ "" →
  has_prefix (String c0 sep') x = false →
  has_prefix (String c0 sep') (x +:+ String c0 sep' +:+ after) = false.
Proof.
  intros Hfresh Hx Hnot.
  destruct (has_prefix _ (x +:+ _)) eqn:Hp; [|done].
  apply has_prefix_app_inv in Hp as [Hp|(p2 & Heq & Hp)]; [congruence|].
  destruct x as [|b x]; [done|].
  rewrite app_cons in Heq. injection Heq as -> ->.
  destruct p2 as [|q p2].
  - by rewrite app_nil_r', has_prefix_same in Hnot.
  - rewrite app_cons in Hp. cbn in Hp.
    apply andb_prop in Hp as [->%Ascii.eqb_eq _].
    rewrite has_byte_app in Hfresh. cbn in Hfresh.
    rewrite Ascii.eqb_refl in Hfresh. by destruct (has_byte b x).
Qed.

Lemma Cut_fresh (c0 : ascii) (sep' before after : string) :
  has_byte c0 sep' = false →
  Cut (String c0 sep') before = None →
  Cut (String c0 sep') (before +:+ String c0 sep' +:+ after)
  = Some (before, after).
Proof.
  intros Hfresh. induction before as [|b before IH]; intros Hnone.
  - rewrite app_nil_l. apply Cut_here.
  - apply Cut_None_cons in Hnone as [Hnot Hnone].
    rewrite app_cons. cbn [Cut]. rewrite <- app_cons.
    rewrite (no_straddle c0 sep' (String b before) after Hfresh) by done.
    by rewrite (IH Hnone).
Qed.
End Strings.

Section Multipart_facts.
Import multipart.

Lemma hex_digit_not_CR (n : N) : Ascii.eqb CR (hex_digit n) = false.
Proof. unfold hex_digit. by repeat case_match. Qed.

(** A boundary is made of hexadecimal digits: it holds no carriage
    return. *)
Lemma hex_no_CR (buf : string) : has_byte CR (hex buf) = false.
Proof.
  induction buf as [|c buf IH]; [done|].
  cbn [hex has_byte].
  by rewrite (Ascii.eqb_sym _ CR), (Ascii.eqb_sym _ CR), !hex_digit_not_CR, IH.
Qed.

Lemma Contains_false (s sep : string) :
  Contains s sep = false → Cut sep s = None.
Proof. unfold Contains. by destruct (Cut sep s). Qed.

(** The content of a part ends at the first line break followed by the
    delimiter; when the content holds none, that is its own end. *)
Lemma Cut_delimiter (boundary content after : string) :
  has_byte CR boundary = false →
  Contains content (CRLF +:+ "--" +:+ boundary) = false →
  Cut (CRLF +:+ "--" +:+ boundary)
    (content +:+ (CRLF +:+ "--" +:+ boundary) +:+ after)
  = Some (content, after).
Proof.
  intros Hhex Hfresh%Contains_false.
  apply (Cut_fresh CR (String LF ("--" +:+ boundary))); [|done].
  cbn [has_byte]. by rewrite has_byte_app, Hhex.
Qed.

(** A content that does not begin with the delimiter is not made to
    begin with it by the line break that follows it. *)
Lemma delimiter_not_ahead (boundary content after : string) :
  has_byte CR boundary = false →
  has_prefix ("--" +:+ boundary) content = false →
  has_prefix ("--" +:+ boundary) (content +:+ CRLF +:+ after) = false.
Proof.
  intros Hhex Hstart.
  destruct (has_prefix _ (content +:+ _)) eqn:Hp; [|done].
  apply has_prefix_app_inv in Hp as [Hp|(p2 & Heq & Hp)]; [congruence|].
  destruct p2 as [|q p2].
  - rewrite app_nil_r' in Heq. subst content.
    by rewrite has_prefix_same in Hstart.
  - cbn in Hp. apply andb_prop in Hp as [->%Ascii.eqb_eq _].
    assert (has_byte CR ("--" +:+ boundary) = true) as Hcr.
    { rewrite Heq, has_byte_app. cbn [has_byte].
      rewrite Ascii.eqb_refl. by destruct (has_byte CR content). }
    rewrite has_byte_app, Hhex in Hcr. done.
Qed.

Lemma Cut_line (line after : string) :
  Cut CRLF line = None → Cut CRLF (line +:+ CRLF +:+ after) = Some (line, after).
Proof. intros Hline. by apply (Cut_fresh CR (String LF "")). Qed.

(** A header of one line, closed by the empty line. *)
Lemma read_header_one (fuel : nat) (key val after : string) :
  Cut CRLF (key +:+ ": " +:+ val) = None →
  Cut ": " (key +:+ ": " +:+ val) = Some (key, val) →
  key +:+ ": " +:+ val ≠ "" →
  read_header (S (S fuel)) ((key +:+ ": " +:+ val) +:+ CRLF +:+ CRLF +:+ after)
  = Some ([(key, val)], after).
Proof.
  intros Hline Hkv Hne. cbn [read_header].
  rewrite (Cut_line _ _ Hline). cbn [mbind option_bind].
  apply String.eqb_neq in Hne. rewrite Hne, Hkv. cbn [mbind option_bind].
  rewrite (Cut_here CRLF after). reflexivity.
Qed.

(** A body of one part reads back as that part. *)
Lemma read_parts_one (fuel : nat) (boundary key val content : string) :
  has_byte CR boundary = false →
  has_prefix ("--" +:+ boundary) content = false →
  Contains content (CRLF +:+ "--" +:+ boundary) = false →
  Cut CRLF (key +:+ ": " +:+ val) = None →
  Cut ": " (key +:+ ": " +:+ val) = Some (key, val) →
  key +:+ ": " +:+ val ≠ "" →
  read_parts (S (S fuel)) boundary
    (CRLF +:+ (key +:+ ": " +:+ val) +:+ CRLF +:+ CRLF +:+ content
     +:+ (CRLF +:+ "--" +:+ boundary) +:+ "--" +:+ CRLF)
  = Some [mkPart [(key, val)] content].
Proof.
  intros Hhex Hstart Hfresh Hline Hkv Hne.
  set (rest := (key +:+ ": " +:+ val) +:+ _).
  change (read_parts (S (S fuel)) boundary (CRLF +:+ rest))
    with ('(blank, s) ← Cut CRLF (CRLF +:+ rest);
          if negb (String.eqb blank "") then None
          else
            '(h, s) ← read_header (S (String.length s)) s;
            if has_prefix ("--" +:+ boundary) s then
              parts ← read_parts (S fuel) boundary
                        (skip (String.length ("--" +:+ boundary)) s);
              Some (mkPart h "" :: parts)
            else
              '(content, s) ← Cut (CRLF +:+ "--" +:+ boundary) s;
              parts ← read_parts (S fuel) boundary s;
              Some (mkPart h content :: parts)).
  rewrite (Cut_here CRLF rest). cbn [mbind option_bind String.eqb negb].
  assert (∃ n, String.length rest = S n) as [n ->].
  { unfold rest. rewrite length_app', (length_app' CRLF).
    cbn [String.length CRLF].
    set (a := String.length (key +:+ _)).
    set (b := String.length (CRLF +:+ _)).
    exists (a + S b)%nat. lia. }
  unfold rest. rewrite (read_header_one n key val _ Hline Hkv Hne).
  cbn [mbind option_bind].
  assert (has_prefix ("--" +:+ boundary)
            (content +:+ (CRLF +:+ "--" +:+ boundary) +:+ "--" +:+ CRLF) = false)
    as -> by exact (delimiter_not_ahead boundary content
                      (("--" +:+ boundary) +:+ "--" +:+ CRLF) Hhex Hstart).
  rewrite (Cut_delimiter boundary content _ Hhex Hfresh).
  reflexivity.
Qed.
End Multipart_facts.

Section Round_trip.
Context `{url.Parser}.
Import ImportAPI.

(** The request that [Create] builds, when it builds one. *)
Lemma CreateRequest_Ok i obj file rnd req :
  CreateRequest i obj file rnd = Ok req →
  ending file = None
  ∧ http.Header req
    = [("Content-Type", "multipart/form-data; boundary=" +:+ multipart.hex rnd)]
  ∧ http.Body req
    = Some ("--" +:+ multipart.hex rnd +:+ CRLF
            +:+ multipart.header_lines file_part_header +:+ CRLF
            +:+ bytes file
            +:+ CRLF +:+ "--" +:+ multipart.hex rnd +:+ "--" +:+ CRLF).
Proof.
  unfold CreateRequest, io_Copy.
  destruct (ending file) as [e|]; [done|]. rewrite bind_Ok.
  unfold http.NewRequest. destruct (url.Parse _) as [e|]; [done|].
  rewrite bind_Ok. intros [= <-]. split; [done|]. split; [reflexivity|].
  cbn [http.Body http.Header_Add multipart.w multipart.Close multipart.Write
       multipart.CreatePart multipart.NewWriter multipart.lastpart
       multipart.boundary].
  f_equal. rewrite !app_nil_l, !app_assoc'. reflexivity.
Qed.

(** C9, as amended: the body that [Create] builds is the opening
    delimiter, the header of one part with the form name "file" and the
    file name "import.csv", the bytes of the stream as they are, and the
    closing delimiter; when the bytes of the stream neither begin with
    [--] and the boundary drawn for the call nor hold a line break
    followed by them, the body reads back as exactly one part, with that
    form name, that file name and the bytes of the stream as content. *)
Theorem Create_round_trip i obj file rnd req :
  CreateRequest i obj file rnd = Ok req →
  http.Body req
  = Some ("--" +:+ multipart.hex rnd +:+ CRLF
          +:+ "Content-Disposition: form-data; name=" +:+ quoted "file"
          +:+ "; filename=" +:+ quoted "import.csv" +:+ CRLF
          +:+ CRLF
          +:+ bytes file
          +:+ CRLF +:+ "--" +:+ multipart.hex rnd +:+ "--" +:+ CRLF)
  ∧ (has_prefix ("--" +:+ multipart.hex rnd) (bytes file) = false →
     Contains (bytes file) (CRLF +:+ "--" +:+ multipart.hex rnd) = false →
     ∃ part,
       request_parts req = Some [part]
       ∧ multipart.FormName part = Some "file"
       ∧ multipart.FileName part = Some "import.csv"
       ∧ multipart.Content part = bytes file).
Proof.
  intros (_ & Hheader & Hbody)%CreateRequest_Ok. split.
  { rewrite Hbody. reflexivity. }
  intros Hstart Hfresh.
  exists (multipart.mkPart file_part_header (bytes file)).
  split; [|by split_and!].
  unfold request_parts. rewrite Hheader, Hbody.
  cbn [textproto.Get String.eqb Ascii.eqb Bool.eqb mbind option_bind].
  rewrite Cut_here. cbn [mbind option_bind].
  unfold multipart.ReadAll.
  rewrite <- (app_assoc' "--" (multipart.hex rnd)).
  rewrite has_prefix_refl, skip_app.
  destruct (String.length _) as [|fuel] eqn:Hlen.
  { rewrite length_app', length_app' in Hlen. cbn in Hlen. lia. }
  etransitivity;
    [|apply (read_parts_one fuel (multipart.hex rnd) "Content-Disposition"
               ("form-data; name=" +:+ quoted "file" +:+ "; filename="
                +:+ quoted "import.csv") (bytes file));
      [apply hex_no_CR | exact Hstart | exact Hfresh | reflexivity
       | reflexivity | done]].
  reflexivity.
Qed.
End Round_trip.

Section Sample_uploads.
Import ImportAPI Sample.

Lemma Create_round_trip_witness :
  ∃ req,
    CreateRequest (client (answer 200 "leads")) Leads (mkStream report None) draw
    = Ok req
    ∧ ∃ part,
        request_parts req = Some [part]
        ∧ multipart.FormName part = Some "file"
        ∧ multipart.FileName part = Some "import.csv"
        ∧ multipart.Content part = report.
Proof.
  eexists. split; [reflexivity|].
  apply (@Create_round_trip parser (client (answer 200 "leads")) Leads
           (mkStream report None) draw);
    [reflexivity | vm_compute; reflexivity | vm_compute; reflexivity].
Defined.

(** C9, as stated, fails: a stream that holds a line break followed by
    [--] and the boundary of the call reads back as two parts, the
    first of which ends where the stream holds the delimiter. *)
Lemma boundary_in_stream :
  (req ← CreateRequest (client (answer 200 "leads")) Leads
           (mkStream collision None) draw;
   Ok (request_parts req))
  = Ok (Some [multipart.mkPart file_part_header "a,b";
              multipart.mkPart [] "c,d"]).
Proof. vm_compute. reflexivity. Qed.
End Sample_uploads.

(** * Further properties of the import API *)

Section ImportAPI_more.
Context `{url.Parser, json.Decoder, csv.Lexer}.
Import ImportAPI.

(** X1: [Get] reports "not found" when the answer has status 200, the
    envelope carries no error entry and its result is an empty array. *)
Theorem Get_not_found i ctx obj id req resp response :
  GetRequest i obj id = Ok req →
  doRequest i req = Ok resp →
  http.StatusCode resp = 200 →
  json.Decode_Response (http.RespBody resp) = Ok response →
  Errors response = [] →
  json.Unmarshal_BatchResults (Result response) = Ok [] →
  Get i ctx obj id = Err ErrNotFound.
Proof.
  intros Hreq Hresp Hcode Hdec Herrs Hres. unfold Get.
  rewrite Hreq, bind_Ok, Hresp, bind_Ok, Hcode. cbn [Z.eqb Pos.eqb negb].
  rewrite Hdec, bind_Ok, Herrs. cbn [len length Z.of_nat Z.ltb Z.compare].
  by rewrite Hres, bind_Ok.
Qed.

(** X2: [Get] returns the first batch of the result array and ignores
    the others; every field of the batch is as decoded, except
    [Processed]. *)
Theorem Get_first_batch i ctx obj id req resp response r others :
  GetRequest i obj id = Ok req →
  doRequest i req = Ok resp →
  http.StatusCode resp = 200 →
  json.Decode_Response (http.RespBody resp) = Ok response →
  Errors response = [] →
  json.Unmarshal_BatchResults (Result response) = Ok (r :: others) →
  Get i ctx obj id
  = Ok (set_Processed
          (if 0 <? LeadsProcessed r then LeadsProcessed r else ObjectsProcessed r)
          r).
Proof.
  intros Hreq Hresp Hcode Hdec Herrs Hres. unfold Get.
  rewrite Hreq, bind_Ok, Hresp, bind_Ok, Hcode. cbn [Z.eqb Pos.eqb negb].
  rewrite Hdec, bind_Ok, Herrs. cbn [len length Z.of_nat Z.ltb Z.compare].
  rewrite Hres, bind_Ok, len_below_one.
  unfold index. cbn. unfold derive_Processed.
  by destruct (0 <? LeadsProcessed r).
Qed.

(** X3: on an answer whose status is not 200, [Create] and [Get] fail
    with the HTTP status error of their operation, whatever the body
    holds. *)
Theorem status_errors i ctx obj resp :
  http.StatusCode resp ≠ 200 →
  (∀ file rnd req,
      CreateRequest i obj file rnd = Ok req → doRequest i req = Ok resp →
      Create i ctx obj file rnd
      = Err (ErrHTTPStatus "create bulk import" (http.StatusCode resp)))
  ∧ (∀ id req,
      GetRequest i obj id = Ok req → doRequest i req = Ok resp →
      Get i ctx obj id
      = Err (ErrHTTPStatus "get import status" (http.StatusCode resp))).
Proof.
  intros Hcode%Z.eqb_neq. split.
  - intros file rnd req Hreq Hresp. unfold Create.
    rewrite Hreq, bind_Ok, Hresp, bind_Ok. unfold http.StatusOK.
    by rewrite Hcode.
  - intros id req Hreq Hresp. unfold Get.
    rewrite Hreq, bind_Ok, Hresp, bind_Ok. unfold http.StatusOK.
    by rewrite Hcode.
Qed.

(** When reading the file stream fails, [Create] fails with the
    error of the stream, whatever the client: no request is built or
    sent. *)
Theorem Create_read_error i ctx obj file rnd e :
  ending file = Some e →
  Create i ctx obj file rnd = Err e
  ∧ CreateRequest i obj file rnd = Err e.
Proof.
  intros Hend. unfold Create, CreateRequest, io_Copy. by rewrite Hend.
Qed.

(** X4: [Create] returns a list of batches exactly when the request was
    built and sent, the answer had status 200, and its envelope decoded
    without error entries to a result that unmarshals; the list is the
    unmarshalled one as it is. *)
Theorem Create_Ok_iff i ctx obj file rnd results :
  Create i ctx obj file rnd = Ok results ↔
  ∃ req resp response,
    CreateRequest i obj file rnd = Ok req
    ∧ doRequest i req = Ok resp
    ∧ http.StatusCode resp = 200
    ∧ json.Decode_Response (http.RespBody resp) = Ok response
    ∧ Errors response = []
    ∧ json.Unmarshal_BatchResults (Result response) = Ok results.
Proof.
  unfold Create. split.
  - intros (req & Hreq & (resp & Hresp & Hrun)%bind_Ok_inv)%bind_Ok_inv.
    destruct (http.StatusCode resp =? http.StatusOK) eqn:Hcode; [|done].
    apply Z.eqb_eq in Hcode.
    apply bind_Ok_inv in Hrun as (response & Hdec & Hrun).
    rewrite len_positive in Hrun.
    destruct (Errors response) as [|entry entries] eqn:Herrs; [|done].
    apply bind_Ok_inv in Hrun as (results' & Hres & [= <-]).
    exists req, resp, response. by rewrite Herrs.
  - intros (req & resp & response & Hreq & Hresp & Hcode & Hdec & Herrs & Hres).
    rewrite Hreq, bind_Ok, Hresp, bind_Ok, Hcode. cbn [Z.eqb Pos.eqb negb].
    rewrite Hdec, bind_Ok, Herrs. cbn [len length Z.of_nat Z.ltb Z.compare].
    by rewrite Hres, bind_Ok.
Qed.

End ImportAPI_more.

(** ** Paths *)

Lemma Sprintf_literal (a format : string) (args : list arg) :
  has_byte "%" a = false → Sprintf (a +:+ format) args = a +:+ Sprintf format args.
Proof.
  induction a as [|c a IH]; [done|].
  cbn [has_byte]. intros [Hc Ha]%orb_false_elim.
  rewrite !app_cons. rewrite <- (IH Ha).
  destruct c as [[] [] [] [] [] [] [] []]; try reflexivity; discriminate.
Qed.

Lemma lead_templates : ImportObjectForAPIName "lead" = Leads.
Proof. reflexivity. Qed.

(** The path of a batch under a record reference whose name holds no
    percent sign: the batch number stands where the template has its
    placeholder. *)
Lemma batch_paths (apiName : string) (id : Z) :
  has_byte "%" apiName = false →
  let obj := ImportObjectForAPIName apiName in
  Sprintf (status obj) [AInt id]
  = (if String.eqb apiName "lead" then "leads/batch/" +:+ Itoa id
     else "customobjects/" +:+ apiName +:+ "/import/" +:+ Itoa id +:+ "/status")
  ∧ Sprintf (failures obj) [AInt id]
    = (if String.eqb apiName "lead" then "leads/batch/" +:+ Itoa id +:+ "/failures"
       else "customobjects/" +:+ apiName +:+ "/import/" +:+ Itoa id +:+ "/failures")
  ∧ Sprintf "%s.json?format=csv" [AString (create obj)]
    = (if String.eqb apiName "lead" then "leads.json?format=csv"
       else "customobjects/" +:+ apiName +:+ "/import.json?format=csv").
Proof.
  intros Hpc. destruct (String.eqb_spec apiName "lead") as [->|Hne].
  - cbv zeta. rewrite lead_templates. cbn.
    split_and!; by rewrite ?app_nil_r'.
  - cbv zeta. rewrite (custom_templates _ Hne). cbn [status failures create].
    split_and!.
    + rewrite (Sprintf_literal "customobjects/") by reflexivity.
      rewrite (Sprintf_literal apiName) by done. reflexivity.
    + rewrite (Sprintf_literal "customobjects/") by reflexivity.
      rewrite (Sprintf_literal apiName) by done. reflexivity.
    + cbn. rewrite !app_assoc'. reflexivity.
Qed.

Section Requests.
Context `{url.Parser}.
Import ImportAPI.

(** X5: for the record reference of a name without percent sign, [Get]
    and [Failures] send a GET without body to the status and failures
    paths of the batch, with the batch number in the place of the
    placeholder, and [Create] posts to the create path with the query
    [format=csv]. *)
Theorem request_paths i (apiName : string) (id : Z) file rnd :
  has_byte "%" apiName = false →
  let obj := ImportObjectForAPIName apiName in
  (∀ req, GetRequest i obj id = Ok req →
     http.Method req = "GET" ∧ http.Body req = None
     ∧ http.URL req
       = url i ["bulk"; "v1";
                (if String.eqb apiName "lead" then "leads/batch/" +:+ Itoa id
                 else "customobjects/" +:+ apiName +:+ "/import/" +:+ Itoa id
                      +:+ "/status") +:+ ".json"])
  ∧ (∀ req, FailuresRequest i obj id = Ok req →
     http.Method req = "GET" ∧ http.Body req = None
     ∧ http.URL req
       = url i ["bulk"; "v1";
                (if String.eqb apiName "lead"
                 then "leads/batch/" +:+ Itoa id +:+ "/failures"
                 else "customobjects/" +:+ apiName +:+ "/import/" +:+ Itoa id
                      +:+ "/failures") +:+ ".json"])
  ∧ (∀ req, CreateRequest i obj file rnd = Ok req →
     http.Method req = "POST"
     ∧ http.URL req
       = url i ["bulk"; "v1";
                if String.eqb apiName "lead" then "leads.json?format=csv"
                else "customobjects/" +:+ apiName +:+ "/import.json?format=csv"]).
Proof.
  intros Hpc obj. subst obj.
  destruct (batch_paths apiName id Hpc) as (Hstatus & Hfailures & Hcreate).
  split_and!.
  - intros req. unfold GetRequest, http.NewRequest.
    destruct (url.Parse _); [done|]. intros [= <-]. cbn [http.Method http.Body http.URL].
    split_and!; [done..|]. by rewrite Hstatus.
  - intros req. unfold FailuresRequest, http.NewRequest.
    destruct (url.Parse _); [done|]. intros [= <-]. cbn [http.Method http.Body http.URL].
    split_and!; [done..|]. by rewrite Hfailures.
  - intros req. unfold CreateRequest, io_Copy.
    destruct (ending file); [done|]. rewrite bind_Ok. unfold http.NewRequest.
    destruct (url.Parse _); [done|]. rewrite bind_Ok. intros [= <-].
    cbn [http.Method http.URL http.Header_Add]. split; [done|].
    by rewrite <- Hcreate.
Qed.
End Requests.

(** ** The failure report, whatever it holds *)

Lemma rows_before_stop_split (header : list string) (lines : list csv.line) :
  ∃ pending,
    lines = (csv.Line <$> rows_before_stop header lines) ++ pending
    ∧ stops header pending
    ∧ Forall (λ row, length row = length header) (rows_before_stop header lines).
Proof.
  induction lines as [|[row|fields e] lines (pending & Hsplit & Hstop & Hrows)].
  - by exists [].
  - cbn [rows_before_stop].
    destruct (Nat.eqb_spec (length row) (length header)) as [Hlen|Hlen].
    + exists pending. cbn [fmap list_fmap app]. split_and!; [|done|by constructor].
      by rewrite <- Hsplit.
    + by exists (csv.Line row :: lines).
  - by exists (csv.Bad fields e :: lines).
Qed.

Section Reports.
Context `{url.Parser, csv.Lexer}.
Import ImportAPI.

(** X6: once the header row of a 200 answer is read, [Failures] does not
    fail: it returns the failures of the data rows that are as long as
    the header, up to the first line that is not such a row, and leaves
    the rest of the body unread, at most one failure per line. *)
Theorem Failures_after_header i ctx obj id req resp header rest :
  FailuresRequest i obj id = Ok req →
  doRequest i req = Ok resp →
  http.StatusCode resp = 200 →
  csv.lines (http.RespBody resp) = csv.Line header :: rest →
  header ≠ [] →
  Failures i ctx obj id = Ok (failure_of header <$> rows_before_stop header rest)
  ∧ (length (rows_before_stop header rest) ≤ length rest)%nat.
Proof.
  intros Hreq Hresp Hcode Hlines Hne.
  destruct (rows_before_stop_split header rest) as (pending & Hsplit & Hstop & Hrows).
  split.
  - apply (Failures_scan i ctx obj id req resp header _ pending); try done.
    by rewrite Hlines, <- Hsplit.
  - rewrite Hsplit at 2. rewrite length_app, length_fmap. lia.
Qed.

(** X7: [Failures] does not go out of range: when the reader hands out
    no record without fields, as encoding/csv does, the index
    [record[len(header)-1]] and the indices of the inner loop are in
    range, and the call ends with a result or an error. *)
Theorem Failures_in_range i ctx obj id req resp :
  FailuresRequest i obj id = Ok req →
  doRequest i req = Ok resp →
  (∀ fields rest,
      csv.lines (http.RespBody resp) = csv.Line fields :: rest → fields ≠ []) →
  ∀ msg, Failures i ctx obj id ≠ Panic msg.
Proof.
  intros Hreq Hresp Hfields msg.
  destruct (decide (http.StatusCode resp = 200)) as [Hcode|Hcode].
  - destruct (csv.lines (http.RespBody resp)) as [|[header|fields e] rest] eqn:Hlines.
    + unfold Failures.
      rewrite Hreq, bind_Ok, Hresp, bind_Ok, Hcode. cbn [Z.eqb Pos.eqb negb].
      unfold csv.Read, csv.NewReader. cbn [csv.pending]. by rewrite Hlines.
    + destruct (rows_before_stop_split header rest)
        as (pending & Hsplit & Hstop & Hrows).
      rewrite (Failures_scan i ctx obj id req resp header
                 (rows_before_stop header rest) pending); try done.
      * by rewrite <- Hsplit.
      * by eapply Hfields.
    + unfold Failures.
      rewrite Hreq, bind_Ok, Hresp, bind_Ok, Hcode. cbn [Z.eqb Pos.eqb negb].
      unfold csv.Read, csv.NewReader. cbn [csv.pending csv.FieldsPerRecord].
      by rewrite Hlines.
  - unfold Failures. rewrite Hreq, bind_Ok, Hresp, bind_Ok.
    unfold http.StatusNotFound, http.StatusOK.
    apply Z.eqb_neq in Hcode. rewrite Hcode.
    by destruct (http.StatusCode resp =? 404).
Qed.
End Reports.

(** * Further properties of the record decoder *)

Section Decoder_more.
Import CustomObjects mapstructure.







Lemma decode_record_steps (l : list (string * value)) :
  decode_record l =
    let g := find_key "MarketoGUID" l in
    let s := find_key "Sequence" l in
    let f1 := mkStructField "MarketoGUID" [("json", "marketoGUID")]
      (SetString (λ s r, mkCustomObjectResult s (Sequence r) (Fields r))) in
    let f2 := mkStructField "Sequence" [("json", "seq")]
      (SetInt (λ n r, mkCustomObjectResult (MarketoGUID r) n (Fields r))) in
    let st0 := mkState zero l.*1 [] in
    let st1 :=
      match g with
      | None => st0
      | Some (k, v) =>
          match decode_field "MarketoGUID" v f1 (out st0) with
          | inl o => mkState o (filter (λ x, x ≠ k) (unused st0)) (errors st0)
          | inr msg => mkState (out st0) (filter (λ x, x ≠ k) (unused st0))
                         (errors st0 ++ [msg])
          end
      end in
    let st2 :=
      match s with
      | None => st1
      | Some (k, v) =>
          match decode_field "Sequence" v f2 (out st1) with
          | inl o => mkState o (filter (λ x, x ≠ k) (unused st1)) (errors st1)
          | inr msg => mkState (out st1) (filter (λ x, x ≠ k) (unused st1))
                         (errors st1 ++ [msg])
          end
      end in
    let st3 :=
      if 0 <? len (unused st2)
      then mkState (mkCustomObjectResult (MarketoGUID (out st2)) (Sequence (out st2))
                      (remaining l (unused st2))) [] (errors st2)
      else st2 in
    match errors st3 with
    | [] => Ok (out st3)
    | msgs => Err (ErrDecode msgs)
    end.
Proof. reflexivity. Qed.


End Decoder_more.

(** ** The order in which a record is ranged over *)

Section Decoder_order.
Import CustomObjects mapstructure.

Lemma EqualFold_length (s t : string) :
  EqualFold s t = true → String.length s = String.length t.
Proof.
  revert t. induction s as [|a s IH]; intros [|b t]; cbn; try done.
  intros [_ Hst]%andb_prop. by rewrite (IH t Hst).
Qed.

Lemma reads_MarketoGUID_not_Sequence (k : string) :
  EqualFold k "MarketoGUID" = true →
  EqualFold k "Sequence" = false ∧ k ≠ "Sequence".
Proof.
  intros Hlen%EqualFold_length. split.
  - destruct (EqualFold k "Sequence") eqn:Hseq; [|done].
    apply EqualFold_length in Hseq. rewrite Hlen in Hseq. discriminate.
  - intros ->. discriminate.
Qed.

(** X11: when a record holds two keys that read [MarketoGUID] and none
    of them is spelled exactly so, the one that comes first in the order
    in which the map is ranged over is promoted: the two orders of the
    same two entries give the two values. *)
Theorem promoted_depends_on_order (k1 k2 a b : string) :
  EqualFold k1 "MarketoGUID" = true → EqualFold k2 "MarketoGUID" = true →
  k1 ≠ "MarketoGUID" → k2 ≠ "MarketoGUID" →
  ∃ r1 r2,
    decode_record [(k1, VString a); (k2, VString b)] = Ok r1
    ∧ decode_record [(k2, VString b); (k1, VString a)] = Ok r2
    ∧ MarketoGUID r1 = a ∧ MarketoGUID r2 = b.
Proof.
  intros Hk1 Hk2 Hne1 Hne2.
  destruct (reads_MarketoGUID_not_Sequence k1 Hk1) as [Hs1 Hn1].
  destruct (reads_MarketoGUID_not_Sequence k2 Hk2) as [Hs2 Hn2].
  apply String.eqb_neq in Hne1, Hne2, Hn1, Hn2.
  assert (∀ x y u v, x ∈ [k1; k2] → y ∈ [k1; k2] →
    find_key "MarketoGUID" [(x, VString u); (y, VString v)] = Some (x, VString u)
    ∧ find_key "Sequence" [(x, VString u); (y, VString v)] = None) as Hfind.
  { intros x y u v Hx Hy. unfold find_key. cbn.
    assert ((x =? "MarketoGUID")%string = false ∧ (y =? "MarketoGUID")%string = false
            ∧ (x =? "Sequence")%string = false ∧ (y =? "Sequence")%string = false
            ∧ EqualFold x "MarketoGUID" = true
            ∧ EqualFold x "Sequence" = false ∧ EqualFold y "Sequence" = false)
      as (-> & -> & -> & -> & -> & -> & ->); [|done].
    set_unfold. destruct Hx as [->|[->|[]]], Hy as [->|[->|[]]]; done. }
  destruct (Hfind k1 k2 a b) as [Hg1 Hq1]; [set_solver..|].
  destruct (Hfind k2 k1 b a) as [Hg2 Hq2]; [set_solver..|].
  rewrite !decode_record_steps. cbv zeta. rewrite Hg1, Hq1, Hg2, Hq2.
  cbn [decode_field field out unused errors app].
  do 2 destruct (0 <? len _); cbn [errors out app];
    eexists _, _; split_and!; reflexivity.
Qed.







End Decoder_order.

(** * Properties of [Filter], [Describe] and [List] *)

Section Filter_more.
Context `{url.Parser, json.Decoder}.
Import CustomObjects.

Lemma decode_records_Ok (raw : list (list (string * value))) results :
  Forall2 (λ l r, decode_record l = Ok r) raw results →
  decode_records raw = Ok results.
Proof.
  induction 1 as [|l r raw results Hl _ IH]; [done|].
  cbn [decode_records]. by rewrite Hl, bind_Ok, IH.
Qed.

Lemma decode_records_Err (good : list (list (string * value))) bad rest results e :
  Forall2 (λ l r, decode_record l = Ok r) good results →
  decode_record bad = Err e →
  decode_records (good ++ bad :: rest) = Err e.
Proof.
  intros Hgood Hbad. induction Hgood as [|l r good results Hl _ IH].
  - cbn [app decode_records]. by rewrite Hbad.
  - cbn [app decode_records]. by rewrite Hl, bind_Ok, IH.
Qed.

Lemma Filter_request filterLeads c ctx name query req :
  FilterRequest c name query = Ok req →
  Filter filterLeads c ctx name (Ok query)
  = (resp ← doRequest c req;
     if negb (http.StatusCode resp =? http.StatusOK) then
       Err (handleError filterLeads resp)
     else
       response ← json.Decode_Response (http.RespBody resp);
       raw ← json.Unmarshal_records (Result response);
       results ← decode_records raw;
       Ok (results, NextPageToken response)).
Proof.
  unfold FilterRequest, Filter. rewrite bind_Ok.
  destruct (http.NewRequest _ _ _) as [request| |]; [|done..].
  rewrite bind_Ok. by intros [= <-].
Qed.

(** X13: when the URL of the request cannot be parsed, [Filter] panics:
    it adds a header to the request, which is nil, before it looks at
    the error of http.NewRequest. *)
Theorem Filter_bad_url filterLeads c ctx name query e :
  url.Parse (url c ["rest"; "v1"; "customobjects";
                    Sprintf "%s.json?_method=GET" [AString name]]) = Some e →
  Filter filterLeads c ctx name (Ok query) = Panic "nil pointer dereference".
Proof.
  intros Hparse. unfold Filter, http.NewRequest. by rewrite bind_Ok, Hparse.
Qed.

(** X14: on a 200 answer whose result unmarshals to records, [Filter]
    returns all the decoded records, in order, with the page token of
    the envelope, or, when a record does not decode, the error of the
    first such record and no record at all.  The error entries of the
    envelope play no part. *)
Theorem Filter_all_or_nothing filterLeads c ctx name query req resp response raw :
  FilterRequest c name query = Ok req →
  doRequest c req = Ok resp →
  http.StatusCode resp = 200 →
  json.Decode_Response (http.RespBody resp) = Ok response →
  json.Unmarshal_records (Result response) = Ok raw →
  (∀ results,
      Forall2 (λ l r, decode_record l = Ok r) raw results →
      Filter filterLeads c ctx name (Ok query)
      = Ok (results, NextPageToken response))
  ∧ (∀ good bad rest results e,
      raw = good ++ bad :: rest →
      Forall2 (λ l r, decode_record l = Ok r) good results →
      decode_record bad = Err e →
      Filter filterLeads c ctx name (Ok query) = Err e).
Proof.
  intros Hreq Hresp Hcode Hdec Hraw.
  rewrite (Filter_request _ _ _ _ _ _ Hreq), Hresp, bind_Ok, Hcode.
  cbn [Z.eqb Pos.eqb negb]. rewrite Hdec, bind_Ok, Hraw, bind_Ok. split.
  - intros results Hall. by rewrite (decode_records_Ok _ _ Hall).
  - intros good bad rest results e -> Hgood Hbad.
    by rewrite (decode_records_Err _ _ _ _ _ Hgood Hbad).
Qed.
End Filter_more.

Section Discovery_facts.
Context `{url.Parser, json.Decoder, Discovery.MetadataDecoder}.
Import Discovery.

Lemma searchable_group (s : list string) (m : gmap string bool) name :
  foldl (λ searchable fld, <[fld := true]> searchable) m s !! name
  = if decide (name ∈ s) then Some true else m !! name.
Proof.
  revert m. induction s as [|fld s IH]; intros m; cbn [foldl].
  - by rewrite decide_False by set_solver.
  - rewrite IH. destruct (decide (name = fld)) as [->|Hne].
    + rewrite lookup_insert_eq. rewrite (decide_True (P := fld ∈ fld :: s)) by set_solver.
      by case_decide.
    + rewrite lookup_insert_ne by done.
      repeat case_decide; set_solver.
Qed.

Lemma searchable_groups (groups : list (list string)) (m : gmap string bool) name :
  foldl (λ searchable s,
           foldl (λ searchable fld, <[fld := true]> searchable) searchable s)
        m groups !! name
  = if decide (Exists (λ s, name ∈ s) groups) then Some true else m !! name.
Proof.
  revert m. induction groups as [|s groups IH]; intros m; cbn [foldl].
  - rewrite decide_False; [done|]. by intros ?%Exists_nil.
  - rewrite IH, searchable_group.
    repeat case_decide; try done; rewrite Exists_cons in *; naive_solver.
Qed.

(** A name is searchable when it stands in one of the groups. *)
Lemma is_searchable_spec (groups : list (list string)) name :
  is_searchable (searchable_names groups) name = true
  ↔ ∃ s, s ∈ groups ∧ name ∈ s.
Proof.
  unfold is_searchable, searchable_names. rewrite searchable_groups.
  rewrite lookup_empty. case_decide as Hex; cbn.
  - apply Exists_exists in Hex. naive_solver.
  - split; [done|]. intros Hs. destruct Hex. by apply Exists_exists.
Qed.

(** X15: [Describe] returns the first object of the decoded result,
    together with the error of the decoding if there was one.  Its
    fields are the decoded fields, in order and with their attributes,
    except [Searchable]: whatever was decoded there, a field is
    searchable exactly when its name stands in one of the groups of
    [SearchableFields].  Every other attribute of the object is as
    decoded. *)
Theorem Describe_searchable c ctx name req resp response object0 others err :
  http.NewRequest http.MethodGet
    (url c ["rest"; "v1"; "customobjects"; name; "describe.json"]) None = Ok req →
  doRequest c req = Ok resp →
  http.StatusCode resp = 200 →
  json.Decode_Response (http.RespBody resp) = Ok response →
  Unmarshal_Metadata (Result response) = (object0 :: others, err) →
  ∃ m,
    Describe c ctx name = Ok (m, err)
    ∧ set_Fields (Fields object0) m = object0
    ∧ Forall2 (λ f0 f,
        ObjectField.set_Searchable (ObjectField.Searchable f0) f = f0
        ∧ (ObjectField.Searchable f = true
           ↔ ∃ s, s ∈ SearchableFields object0 ∧ ObjectField.Name f0 ∈ s))
        (Fields object0) (Fields m).
Proof.
  intros Hreq Hresp Hcode Hdec Hmeta. unfold Describe.
  rewrite Hreq, bind_Ok, Hresp, bind_Ok, Hcode. cbn [Z.eqb Pos.eqb negb].
  rewrite Hdec, bind_Ok, Hmeta.
  eexists. split; [reflexivity|]. split; [by destruct object0|].
  cbn [Fields set_Fields]. apply Forall2_fmap_r, Forall_Forall2_diag, Forall_forall.
  intros f0 _. split; [by destruct f0|].
  cbn [ObjectField.Searchable ObjectField.set_Searchable].
  apply is_searchable_spec.
Qed.

(** X16: when the decoded result holds no object, [Describe] reports
    "not found", also when the decoding failed: the error of the
    decoding is not returned. *)
Theorem Describe_not_found c ctx name req resp response err :
  http.NewRequest http.MethodGet
    (url c ["rest"; "v1"; "customobjects"; name; "describe.json"]) None = Ok req →
  doRequest c req = Ok resp →
  http.StatusCode resp = 200 →
  json.Decode_Response (http.RespBody resp) = Ok response →
  Unmarshal_Metadata (Result response) = ([], err) →
  Describe c ctx name = Err ErrNotFound.
Proof.
  intros Hreq Hresp Hcode Hdec Hmeta. unfold Describe.
  rewrite Hreq, bind_Ok, Hresp, bind_Ok, Hcode. cbn [Z.eqb Pos.eqb negb].
  by rewrite Hdec, bind_Ok, Hmeta.
Qed.
End Discovery_facts.

(** * The further properties on the sample environment *)

Section Sample_more.
Import ImportAPI CustomObjects Sample.

Lemma Get_not_found_witness :
  Get (H0 := Sample2.decoder) (client (answer 200 "empty")) Background Leads 7
  = Err ErrNotFound.
Proof.
  refine (@Get_not_found parser Sample2.decoder (client (answer 200 "empty"))
            Background Leads 7 _ _ (mkEnvelope [] "empty" "")
            eq_refl eq_refl eq_refl eq_refl eq_refl eq_refl).
Defined.

Lemma Get_first_batch_witness :
  Get (H0 := Sample2.decoder) (client (answer 200 "batches")) Background Leads 7
  = Ok (set_Processed 9 (job 0 9)).
Proof.
  refine (@Get_first_batch parser Sample2.decoder (client (answer 200 "batches"))
            Background Leads 7 _ _ (mkEnvelope [] "batches" "") (job 0 9) [job 4 0]
            eq_refl eq_refl eq_refl eq_refl eq_refl eq_refl).
Defined.

Lemma status_errors_witness :
  Create (client (answer 503 "")) Background Leads (mkStream "email" None) draw
  = Err (ErrHTTPStatus "create bulk import" 503)
  ∧ Get (client (answer 503 "")) Background Leads 7
    = Err (ErrHTTPStatus "get import status" 503).
Proof.
  assert (http.StatusCode (answer 503 "") ≠ 200) as Hcode by discriminate.
  destruct (@status_errors parser decoder (client (answer 503 "")) Background
              Leads (answer 503 "") Hcode) as [HCreate HGet].
  split.
  - eapply HCreate; reflexivity.
  - eapply HGet; reflexivity.
Defined.

Lemma Create_read_error_witness :
  Create (client (answer 200 "leads")) Background Leads
    (mkStream "email" (Some (ErrOther "io" "unexpected EOF"))) draw
  = Err (ErrOther "io" "unexpected EOF").
Proof.
  refine (proj1 (@Create_read_error parser decoder (client (answer 200 "leads"))
                   Background Leads
                   (mkStream "email" (Some (ErrOther "io" "unexpected EOF"))) draw
                   (ErrOther "io" "unexpected EOF") eq_refl)).
Defined.

Lemma Create_Ok_iff_witness :
  Create (H0 := Sample2.decoder) (client (answer 200 "batches")) Background Leads
    (mkStream report None) draw
  = Ok [job 0 9; job 4 0].
Proof.
  apply (@Create_Ok_iff parser Sample2.decoder).
  eexists _, (answer 200 "batches"), (mkEnvelope [] "batches" "").
  split_and!; reflexivity.
Defined.

Lemma request_paths_witness :
  ∃ req,
    GetRequest (client (answer 200 "leads")) (ImportObjectForAPIName "car_c") 12
    = Ok req
    ∧ http.URL req
      = "https://example.mktorest.com/bulk/v1/customobjects/car_c/import/12/status.json".
Proof.
  eexists. split; [reflexivity|].
  assert (has_byte "%" "car_c" = false) as Hpc by reflexivity.
  destruct (@request_paths parser (client (answer 200 "leads")) "car_c" 12
              (mkStream "" None) "" Hpc) as (HGet & _ & _).
  destruct (HGet _ eq_refl) as (_ & _ & ->). reflexivity.
Defined.

Lemma Failures_after_header_witness :
  Failures (client (answer 200 torn_report)) Background Leads 7
  = Ok [ mkLeadImportFailure "invalid email"
           {[ "email" := VString "a@x.com"; "first_name" := VString "Ann" ]} ].
Proof.
  refine (eq_trans (proj1 (@Failures_after_header parser lexer
    (client (answer 200 torn_report)) Background Leads 7 _ _
    ["email"; "first_name"; "reason"]
    [csv.Line ["a@x.com"; "Ann"; "invalid email"]; csv.Line ["b@x.com"; "Bob"];
     csv.Line ["c@x.com"; "Cy"; "late"]]
    eq_refl eq_refl eq_refl eq_refl _)) _).
  - discriminate.
  - vm_compute. reflexivity.
Defined.

Lemma Failures_in_range_witness :
  (∀ fields rest,
      csv.lines (http.RespBody (answer 200 report)) = csv.Line fields :: rest →
      fields ≠ [])
  ∧ Failures (client (answer 200 report)) Background Leads 7
    ≠ Panic "index out of range".
Proof.
  assert (∀ fields rest,
      csv.lines (http.RespBody (answer 200 report)) = csv.Line fields :: rest →
      fields ≠ []) as Hfields.
  { intros fields rest. vm_compute. intros [= <- _]. discriminate. }
  split; [exact Hfields|].
  refine (@Failures_in_range parser lexer (client (answer 200 report))
            Background Leads 7 _ _ eq_refl eq_refl Hfields _).
Defined.




Lemma promoted_depends_on_order_witness :
  ∃ r1 r2,
    decode_record Sample2.two_spellings = Ok r1
    ∧ decode_record (reverse Sample2.two_spellings) = Ok r2
    ∧ MarketoGUID r1 = "a" ∧ MarketoGUID r2 = "b".
Proof.
  apply (promoted_depends_on_order "MARKETOGUID" "marketoguid" "a" "b");
    [reflexivity | reflexivity | discriminate | discriminate].
Defined.


Lemma Filter_bad_url_witness :
  Filter "filter leads" (client (answer 200 "records")) Background
    Sample2.broken_name (Ok "filterType=vin")
  = Panic "nil pointer dereference".
Proof.
  eapply (@Filter_bad_url parser decoder). reflexivity.
Defined.

Lemma Filter_all_or_nothing_witness :
  Filter (H0 := Sample2.decoder) "filter leads" (client (answer 200 "flagged"))
    Background "car_c" (Ok "filterType=vin")
  = Ok ([ {| MarketoGUID := "g1"; Sequence := 0;
             Fields := {[ "seq" := VFloat64 3; "color" := VString "red";
                          "size" := VString "L" ]} |} ], "page2")
  ∧ Filter (H0 := Sample2.decoder) "filter leads" (client (answer 200 "mixed"))
      Background "car_c" (Ok "filterType=vin")
    = Err (ErrDecode
             ["'MarketoGUID' expected type 'string', got unconvertible type 'float64'"]).
Proof.
  split.
  - refine (proj1 (@Filter_all_or_nothing parser Sample2.decoder "filter leads"
      (client (answer 200 "flagged")) Background "car_c" "filterType=vin" _ _
      (mkEnvelope [mkErrorEntry "1004: Lead not found"] "records" "page2")
      [wire_record] eq_refl eq_refl eq_refl eq_refl eq_refl) _ _).
    repeat constructor.
  - refine (proj2 (@Filter_all_or_nothing parser Sample2.decoder "filter leads"
      (client (answer 200 "mixed")) Background "car_c" "filterType=vin" _ _
      (mkEnvelope [] "mixed" "")
      [wire_record; [("marketoGUID", VFloat64 7)]; []]
      eq_refl eq_refl eq_refl eq_refl eq_refl)
      [wire_record] [("marketoGUID", VFloat64 7)] [[]] _ _ eq_refl _ _).
    + repeat constructor.
    + vm_compute. reflexivity.
Defined.

Lemma Describe_searchable_witness :
  ∃ m,
    @Discovery.Describe parser Sample2.decoder Sample2.metadata
      (client (answer 200 "car")) Background "car_c" = Ok (m, None)
    ∧ Discovery.set_Fields (Discovery.Fields Sample2.car) m = Sample2.car
    ∧ Forall2 (λ f0 f,
        Discovery.ObjectField.set_Searchable
          (Discovery.ObjectField.Searchable f0) f = f0
        ∧ (Discovery.ObjectField.Searchable f = true
           ↔ ∃ s, s ∈ Discovery.SearchableFields Sample2.car
                  ∧ Discovery.ObjectField.Name f0 ∈ s))
        (Discovery.Fields Sample2.car) (Discovery.Fields m).
Proof.
  refine (@Describe_searchable parser Sample2.decoder Sample2.metadata
            (client (answer 200 "car")) Background "car_c" _ _
            (mkEnvelope [] "car" "") Sample2.car [] None
            eq_refl eq_refl eq_refl eq_refl eq_refl).
Defined.

Lemma Describe_not_found_witness :
  @Discovery.Describe parser Sample2.decoder Sample2.metadata
    (client (answer 200 "garbled")) Background "car_c" = Err ErrNotFound.
Proof.
  refine (@Describe_not_found parser Sample2.decoder Sample2.metadata
            (client (answer 200 "garbled")) Background "car_c" _ _
            (mkEnvelope [] "garbled" "")
            (Some (ErrOther "encoding/json" "unexpected end of JSON input"))
            eq_refl eq_refl eq_refl eq_refl eq_refl).
Defined.

End Sample_more.
